(** * Console client of the chess application: a model of [client.cpp]

    The translation unit [src/client.cpp] binds keyboard input to a
    command dispatcher and paints the board on a character-cell display.
    Everything it does is a sequence of calls on its collaborators (the
    engine, the renderer, the console and the command factory) together
    with updates of the fields of the [client] object.  The model below
    keeps both: a record for the object, and a log of the calls in the
    order in which they are made. *)

From Stdlib Require Import ZArith String Ascii Lia.
From stdpp Require Import base tactics option list list_numbers strings.

Local Open Scope Z_scope.

(** ** Machine integers *)

(** [int32_t]: the value of a 32-bit two's complement computation. *)
Definition int32 (z : Z) : Z := (z + 2 ^ 31) `mod` 2 ^ 32 - 2 ^ 31.

(** ** Coordinates *)

(** Modelled from the spec: the type [coord] is declared outside
    [client.cpp].  The spec describes it as an immutable value of two
    signed integers [(x, y)] with an addition and a taxicab length, the
    sum of the absolute values of the components; no width is given, so
    the components are integers. *)
Record coord : Type := mk_coord { coord_x : Z; coord_y : Z }.

#[global] Instance coord_eq_dec : EqDecision coord.
Proof. solve_decision. Defined.

Definition coord_add (a b : coord) : coord :=
  mk_coord (coord_x a + coord_x b) (coord_y a + coord_y b).

Infix "+c" := coord_add (at level 50, left associativity).

Definition taxicab_length (c : coord) : Z :=
  Z.abs (coord_x c) + Z.abs (coord_y c).

(** Modelled from the spec: [board::width], the fixed width (8) of the
    board, is a constant of the board class. *)
Definition board_width : Z := 8.

(** ** Collaborators *)

(** The engine, the board factory, the piece serializer and the colour
    constants of the renderer are consumed by [client.cpp] and defined
    elsewhere; the client is verified for every implementation of them. *)
Class Collaborators : Type := {
  board : Type;
  piece_info_t : Type;
  (** [board::create(fen)]: the board, or null for an invalid string. *)
  board_create : string → option board;
  (** [board::create_default()]. *)
  board_create_default : board;
  (** [engine::get_piece(pos, &piece)]: the value left in [piece]. *)
  engine_get_piece : board → coord → piece_info_t;
  (** [util::serialize_piece(piece)]: a character, or nothing. *)
  serialize_piece : piece_info_t → option ascii;
  color_black : Z;
  color_white : Z;
}.

(** The commands a client registers; [client.cpp] has a single one. *)
Inductive command_id : Type := CmdQuit.

#[global] Instance command_id_eq_dec : EqDecision command_id.
Proof. solve_decision. Defined.

(** Exceptions carry a message. *)
Definition exn : Type := string.

Inductive outcome (A : Type) : Type :=
| Returned (a : A)
| Thrown (e : exn).
Arguments Returned {A} a.
Arguments Thrown {A} e.

Section Client.
Context `{Collaborators}.

(** ** The calls on the collaborators *)

Inductive event : Type :=
| EvSetBoard (b : board)                  (* m_engine.set_board(b) *)
| EvGetPiece (pos : coord)                (* m_engine.get_piece(pos, &piece) *)
| EvAddKeyCallback (h : nat)              (* renderer::add_key_callback, returning h *)
| EvRemoveKeyCallback (h : nat)           (* renderer::remove_key_callback(h) *)
| EvConsoleCreate (cid : nat)             (* game_console::create(), returning cid *)
| EvSetAcceptInput (cid : nat) (b : bool) (* console->set_accept_input(b) *)
| EvProcessKeystroke (cid : nat) (c : ascii)
| EvAddAlias (cid : nat) (alias : string) (* command_factory(console).add_alias *)
| EvSetCallback (cid : nat) (cmd : command_id)
| EvRender (pos : coord) (glyph : Z) (fg bg : option Z)
| EvLock                                  (* m_mutex acquired *)
| EvUnlock                                (* m_mutex released *)
| EvReadShouldQuit                        (* m_should_quit read *)
| EvWriteShouldQuit (b : bool).           (* m_should_quit = b *)

(** ** The client object *)

Record client : Type := mk_client {
  m_engine : board;        (* the board the engine currently holds *)
  m_key_callback : nat;    (* handle of the registered key callback *)
  m_should_quit : bool;
  m_console : nat;         (* the shared console *)
  m_mutex : bool;          (* true while the client lock is held *)
}.

Definition with_engine (b : board) (c : client) : client :=
  mk_client b (m_key_callback c) (m_should_quit c) (m_console c) (m_mutex c).
Definition with_should_quit (q : bool) (c : client) : client :=
  mk_client (m_engine c) (m_key_callback c) q (m_console c) (m_mutex c).
Definition with_mutex (held : bool) (c : client) : client :=
  mk_client (m_engine c) (m_key_callback c) (m_should_quit c) (m_console c) held.

(** A method runs on the object and appends to the log of calls. *)
Record state : Type := mk_state { this : client; log : list event }.

Definition M (A : Type) : Type := state → outcome A * state.

#[global] Instance M_ret : MRet M := λ A a s, (Returned a, s).

#[global] Instance M_bind : MBind M :=
  λ A B k m s, match m s with
               | (Returned a, s') => k a s'
               | (Thrown e, s') => (Thrown e, s')
               end.

Definition throw {A} (e : exn) : M A := λ s, (Thrown e, s).

Definition emit (e : event) : M unit :=
  λ s, (Returned tt, mk_state (this s) (log s ++ [e])).

Definition field {A} (f : client → A) : M A := λ s, (Returned (f (this s)), s).

Definition history : M (list event) := λ s, (Returned (log s), s).

Definition update (f : client → client) : M unit :=
  λ s, (Returned tt, mk_state (f (this s)) (log s)).

(** A scoped object: [leave] is its destructor, run when the scope is
    left, whether by a return or by an exception. *)
Definition scoped {A} (enter leave : M unit) (body : M A) : M A :=
  λ s, match enter s with
       | (Thrown e, s1) => (Thrown e, s1)
       | (Returned _, s1) =>
           let '(r, s2) := body s1 in
           match leave s2 with
           | (Thrown e, s3) => (Thrown e, s3)
           | (Returned _, s3) => (r, s3)
           end
       end.

(** A counted loop: the body runs once for each index, in order. *)
Fixpoint for_each {A} (l : list A) (body : A → M unit) : M unit :=
  match l with
  | [] => mret tt
  | a :: l' => body a ;; for_each l' body
  end.

(** ** Gateways *)

(** Modelled from the spec: the renderer hands out a handle for each
    registration; here the handle is the number of registrations made
    before, so no handle is given twice. *)
Definition is_add_key_callback (e : event) : bool :=
  match e with EvAddKeyCallback _ => true | _ => false end.
Definition fresh_callback (l : list event) : nat :=
  length (List.filter is_add_key_callback l).

Definition is_console_create (e : event) : bool :=
  match e with EvConsoleCreate _ => true | _ => false end.
Definition fresh_console (l : list event) : nat :=
  length (List.filter is_console_create l).

Definition renderer_add_key_callback (l : list event) : nat * list event :=
  let h := fresh_callback l in (h, l ++ [EvAddKeyCallback h]).

Definition renderer_remove_key_callback (h : nat) : M unit :=
  emit (EvRemoveKeyCallback h).

(** [renderer::render(pos, glyph, fg, bg)]; the colours are optional
    arguments, [None] when the call leaves them out. *)
Definition renderer_render (pos : coord) (glyph : Z) (fg bg : option Z) : M unit :=
  emit (EvRender pos glyph fg bg).

(** Modelled from the spec: [game_console::create()] returns a new
    console; consoles are numbered in the order of their creation. *)
Definition game_console_create (l : list event) : nat * list event :=
  let cid := fresh_console l in (cid, l ++ [EvConsoleCreate cid]).

Definition set_accept_input (cid : nat) (b : bool) : M unit :=
  emit (EvSetAcceptInput cid b).

Definition engine_set_board (b : board) : M unit :=
  update (with_engine b) ;; emit (EvSetBoard b).

Definition engine_get_piece_at (pos : coord) : M piece_info_t :=
  b ← field m_engine;
  emit (EvGetPiece pos) ;;
  mret (engine_get_piece b pos).

(** [util::mutex_lock lock(m_mutex)]: the lock is taken where the guard
    is declared and released when its scope ends.  No path of
    [client.cpp] declares a second guard inside the scope of one. *)
Definition mutex_lock {A} (body : M A) : M A :=
  scoped (update (with_mutex true) ;; emit EvLock)
         (update (with_mutex false) ;; emit EvUnlock)
         body.

(** [console_lock lock(m_console)]: the guard keeps its own reference to
    the console, switches input off, and switches it on again in its
    destructor. *)
Definition console_lock {A} (console : nat) (body : M A) : M A :=
  scoped (set_accept_input console false)
         (set_accept_input console true)
         body.

(** ** Methods of the client *)

(** [client::command_quit(args)]. *)
Definition command_quit (args : list string) : M unit :=
  update (with_should_quit true) ;; emit (EvWriteShouldQuit true).

(** [BIND_CLIENT_COMMAND(func)]: the callback handed to the command
    factory. *)
Definition BIND_CLIENT_COMMAND {A} (func : list string → M A)
    (args : list string) : M A :=
  console ← field m_console;
  console_lock console (func args).

(** What the console runs for a registered command. *)
Definition command_callback (cmd : command_id) : list string → M unit :=
  match cmd with
  | CmdQuit => BIND_CLIENT_COMMAND command_quit
  end.

(** [client::register_commands()]. *)
Definition register_commands : M unit :=
  console ← field m_console;
  (* quit command *)
  emit (EvAddAlias console "quit") ;;
  emit (EvSetCallback console CmdQuit).

(** [client::load_fen(fen)]. *)
Definition load_fen (fen : string) : M bool :=
  mutex_lock
    (match board_create fen with
     | None => mret false
     | Some _board => engine_set_board _board ;; mret true
     end).

(** [client::should_quit()]. *)
Definition should_quit : M bool :=
  mutex_lock (emit EvReadShouldQuit ;; field m_should_quit).

(** [client::~client()]. *)
Definition client_dtor : M unit :=
  h ← field m_key_callback;
  renderer_remove_key_callback h.

(** [client::client()]: the object exists once every member has its
    value; the calls are logged in the order of the constructor body. *)
Definition client_ctor (l : list event) : state :=
  let _board := board_create_default in
  let l := l ++ [EvSetBoard _board] in
  let '(key_callback, l) := renderer_add_key_callback l in
  let l := l ++ [EvWriteShouldQuit false] in
  let '(console, l) := game_console_create l in
  mk_state (mk_client _board key_callback false console false) l.

(** ** Painting the board *)

(** [client::redraw_board_frame(offset)]. *)
Definition redraw_board_frame (offset : coord) : M unit :=
  (* lines *)
  for_each (seqZ 0 (board_width + 1)) (λ i,
    for_each (seqZ 0 board_width) (λ j,
      let coord_0 := int32 (int32 i * 2) in
      let coord_1 := int32 (1 + int32 (int32 j * 2)) in
      renderer_render (offset +c mk_coord coord_0 coord_1) 0x2551 None None ;;
      renderer_render (offset +c mk_coord coord_1 coord_0) 0x2550 None None)) ;;
  (* intersections *)
  for_each (seqZ 0 (board_width - 1)) (λ i,
    for_each (seqZ 0 (board_width - 1)) (λ j,
      let x := int32 (2 + int32 (int32 i * 2)) in
      let y := int32 (2 + int32 (int32 j * 2)) in
      renderer_render (offset +c mk_coord x y) 0x256c None None)) ;;
  (* corners *)
  renderer_render (offset +c mk_coord 0 0) 0x2554 None None ;;
  renderer_render (offset +c mk_coord (int32 (board_width * 2)) 0) 0x2557 None None ;;
  renderer_render (offset +c mk_coord 0 (int32 (board_width * 2))) 0x255a None None ;;
  renderer_render
    (offset +c mk_coord (int32 (board_width * 2)) (int32 (board_width * 2)))
    0x255d None None ;;
  (* edge intersections *)
  for_each (seqZ 0 (board_width - 1)) (λ i,
    let c := int32 (2 + int32 (int32 i * 2)) in
    renderer_render (offset +c mk_coord c 0) 0x2566 None None ;;
    renderer_render (offset +c mk_coord c (int32 (board_width * 2))) 0x2569 None None ;;
    renderer_render (offset +c mk_coord 0 c) 0x2560 None None ;;
    renderer_render (offset +c mk_coord (int32 (board_width * 2)) c) 0x2563 None None).

(** The locals [is_tile_white], [fg] and [bg] of the piece loop. *)
Definition is_tile_white (local : coord) : bool :=
  negb (taxicab_length local `rem` 2 =? 0).
Definition tile_fg (local : coord) : Z :=
  if is_tile_white local then color_black else color_white.
Definition tile_bg (local : coord) : Z :=
  if is_tile_white local then color_white else color_black.

(** [(wchar_t)character]: [character] is a plain [char], which is
    signed where the client is built, and [wchar_t] is wide enough for
    every [char]; so the conversion keeps the value of the [char], the
    byte itself below 0x80 and the byte less 256 from 0x80 on. *)
Definition wchar_of_char (c : ascii) : Z :=
  let byte := Z.of_nat (nat_of_ascii c) in
  if byte <? 128 then byte else byte - 256.

(** [util::serialize_piece(piece).value_or(' ')]. *)
Definition piece_character (piece : piece_info_t) : ascii :=
  default " "%char (serialize_piece piece).

(** The local [global] of the piece loop: where the tile of [(x, y)]
    goes on the screen. *)
Definition tile_global (offset : coord) (x y : Z) : coord :=
  offset +c mk_coord (int32 (1 + int32 (x * 2)))
                     (int32 (1 + int32 (int32 (board_width - int32 (y + 1)) * 2))).

(** [client::redraw_board(offset)]. *)
Definition redraw_board (offset : coord) : M unit :=
  redraw_board_frame offset ;;
  (* drawing pieces *)
  for_each (seqZ 0 board_width) (λ x,
    for_each (seqZ 0 board_width) (λ y,
      let local := mk_coord x y in
      let fg := tile_fg local in
      let bg := tile_bg local in
      piece ← engine_get_piece_at local;
      let character := piece_character piece in
      let global := tile_global offset x y in
      renderer_render global (wchar_of_char character) (Some fg) (Some bg))).

(** [client::redraw()]. *)
Definition redraw : M unit :=
  redraw_board (mk_coord 0 0).

(** [client::create(fen)]: the instance, or nothing, and the log.  The
    shared pointer [_client] is the only owner of the new client, so
    [_client.reset()] runs the destructor, and so does the unwinding of
    an exception; [_client] is the flag that says whether the pointer
    still holds the client. *)
Definition create (fen : option string) (l : list event)
    : option client * list event :=
  let s := client_ctor l in
  let '(_client, s) :=
    match fen with
    | Some fen =>
        match load_fen fen s with
        | (Returned true, s) => (true, s)
        | (_, s) => (false, (client_dtor s).2)
        end
    | None => (true, s)
    end in
  if _client then
    match (register_commands ;;
           redraw ;;
           console ← field m_console;
           set_accept_input console true) s with
    | (Returned _, s) => (Some (this s), log s)
    | (Thrown _, s) => (None, log (client_dtor s).2)
    end
  else (None, log s).

(** ** The input path *)

(** The console decides, from what has happened so far and the key it
    receives, which registered callbacks to run and with which
    arguments; the client is verified for every such console. *)
Variable console_dispatch : list event → ascii → list (command_id * list string).

(** Modelled from the spec: [game_console::process_keystroke(c)] parses
    the input and dispatches to the matching command callbacks. *)
Definition process_keystroke (cid : nat) (c : ascii) : M unit :=
  emit (EvProcessKeystroke cid c) ;;
  past ← history;
  for_each (console_dispatch past c) (λ call, command_callback call.1 call.2).

(** [client_callback_delegate::key_callback(c)], reached from
    [client_key_callback(c, user_data)]. *)
Definition key_callback (c : ascii) : M unit :=
  mutex_lock (console ← field m_console; process_keystroke console c).

(** ** Reading a log *)

(** The calls a method adds to the log. *)
Definition calls_of {A} (m : M A) (s : state) : list event :=
  drop (length (log s)) (log (m s).2).

(** Modelled from the spec: the key callbacks the renderer holds after
    a history of [add_key_callback] and [remove_key_callback]. *)
Definition registered_callbacks (l : list event) : list nat :=
  foldl (λ reg e,
           match e with
           | EvAddKeyCallback h => reg ++ [h]
           | EvRemoveKeyCallback h => filter (λ h', h' ≠ h) reg
           | _ => reg
           end) [] l.

(** A log whose registrations carry the handles the renderer hands
    out, each the number of the registrations before it. *)
Definition handles_as_issued (l : list event) : Prop :=
  ∀ before h after,
    l = before ++ EvAddKeyCallback h :: after → h = fresh_callback before.

(** Modelled from the spec: the accept-input flag of a console is what
    the last [set_accept_input] made it; [None] while it still has the
    value the console was created with. *)
Definition accept_input (cid : nat) (l : list event) : option bool :=
  foldl (λ flag e,
           match e with
           | EvSetAcceptInput cid' b => if decide (cid' = cid) then Some b else flag
           | _ => flag
           end) None l.

(** The calls that read or write the state the client owns. *)
Definition touches_client_state (e : event) : bool :=
  match e with
  | EvSetBoard _ | EvGetPiece _ | EvReadShouldQuit | EvWriteShouldQuit _ => true
  | _ => false
  end.

(** Every such call of the log is made while the client lock is held;
    [held] says whether it is held at the start. *)
Fixpoint guarded (held : bool) (l : list event) : bool :=
  match l with
  | [] => true
  | EvLock :: l' => guarded true l'
  | EvUnlock :: l' => guarded false l'
  | e :: l' => (negb (touches_client_state e) || held) && guarded held l'
  end.

Definition is_render (e : event) : bool :=
  match e with EvRender _ _ _ _ => true | _ => false end.

(** A tile is painted with both colours given, the frame with none. *)
Definition is_tile_render (e : event) : bool :=
  match e with EvRender _ _ (Some _) (Some _) => true | _ => false end.

Definition renders_glyph (g : Z) (e : event) : bool :=
  match e with EvRender _ g' None None => g' =? g | _ => false end.

Definition count_calls (p : event → bool) (l : list event) : nat :=
  length (List.filter p l).

Definition is_set_board (e : event) : bool :=
  match e with EvSetBoard _ => true | _ => false end.

Definition is_set_accept_input (e : event) : bool :=
  match e with EvSetAcceptInput _ _ => true | _ => false end.

(** A call moved by an offset. *)
Definition translate (offset : coord) (e : event) : event :=
  match e with
  | EvRender pos glyph fg bg => EvRender (offset +c pos) glyph fg bg
  | _ => e
  end.

Definition on_even_line (e : event) : bool :=
  match e with
  | EvRender pos _ None None => Z.even (coord_x pos) || Z.even (coord_y pos)
  | _ => false
  end.

(** The board a client is asked to start from. *)
Definition requested_board (fen : option string) : option board :=
  match fen with
  | Some fen => board_create fen
  | None => Some board_create_default
  end.

(** The calls of the quit callback on a console. *)
Definition quit_calls (console : nat) : list event :=
  [EvSetAcceptInput console false; EvWriteShouldQuit true;
   EvSetAcceptInput console true].

(** ** The painting as the specification describes it *)

(** The screen cell of the tile of [(x, y)]. *)
Definition described_tile_position (offset : coord) (x y : Z) : coord :=
  offset +c mk_coord (1 + 2 * x) (1 + 2 * (board_width - 1 - y)).

(** The segments of the [width + 1] vertical and horizontal separator
    lines, [width] segments each. *)
Definition described_lines (offset : coord) : list event :=
  i ← seqZ 0 (board_width + 1);
  j ← seqZ 0 board_width;
  [EvRender (offset +c mk_coord (2 * i) (1 + 2 * j)) 0x2551 None None;
   EvRender (offset +c mk_coord (1 + 2 * j) (2 * i)) 0x2550 None None].

(** The [(width - 1)²] four-way intersections inside the frame. *)
Definition described_intersections (offset : coord) : list event :=
  i ← seqZ 0 (board_width - 1);
  j ← seqZ 0 (board_width - 1);
  [EvRender (offset +c mk_coord (2 + 2 * i) (2 + 2 * j)) 0x256c None None].

Definition described_corners (offset : coord) : list event :=
  [EvRender (offset +c mk_coord 0 0) 0x2554 None None;
   EvRender (offset +c mk_coord 16 0) 0x2557 None None;
   EvRender (offset +c mk_coord 0 16) 0x255a None None;
   EvRender (offset +c mk_coord 16 16) 0x255d None None].

(** The T-intersections along the four borders. *)
Definition described_edges (offset : coord) : list event :=
  i ← seqZ 0 (board_width - 1);
  [EvRender (offset +c mk_coord (2 + 2 * i) 0) 0x2566 None None;
   EvRender (offset +c mk_coord (2 + 2 * i) 16) 0x2569 None None;
   EvRender (offset +c mk_coord 0 (2 + 2 * i)) 0x2560 None None;
   EvRender (offset +c mk_coord 16 (2 + 2 * i)) 0x2563 None None].

Definition described_frame (offset : coord) : list event :=
  described_lines offset ++ described_intersections offset
    ++ described_corners offset ++ described_edges offset.

(** The tile of [(x, y)]: the piece is fetched, then painted. *)
Definition described_tile (b : board) (offset : coord) (x y : Z) : list event :=
  [EvGetPiece (mk_coord x y);
   EvRender (described_tile_position offset x y)
            (wchar_of_char (piece_character (engine_get_piece b (mk_coord x y))))
            (Some (tile_fg (mk_coord x y))) (Some (tile_bg (mk_coord x y)))].

Definition described_tiles (b : board) (offset : coord) : list event :=
  x ← seqZ 0 board_width;
  y ← seqZ 0 board_width;
  described_tile b offset x y.

(** A method that only adds calls to the log: it returns, leaves the
    object as it was, and the calls depend on the object alone. *)
Definition paints (m : M unit) (calls : client → list event) : Prop :=
  ∀ s, m s = (Returned tt, mk_state (this s) (log s ++ calls (this s))).

(** A console that runs no command for a key unless input was switched
    on: the last [set_accept_input] it got, if any, said true. *)
Definition waits_for_accept_input
    (dispatch : list event → ascii → list (command_id * list string)) : Prop :=
  ∀ past cid c,
    accept_input cid past ≠ Some true →
    dispatch (past ++ [EvProcessKeystroke cid c]) c = [].

(** ** Sessions *)

(** What happens to a client between its creation and its destruction:
    its methods are called, the renderer delivers keys and the console
    runs registered callbacks, in any order. *)
Inductive operation : Type :=
| OpLoadFen (fen : string)                        (* load_fen(fen) *)
| OpShouldQuit                                    (* should_quit() *)
| OpKey (c : ascii)                               (* client_key_callback(c, this) *)
| OpRedraw                                        (* redraw() *)
| OpCommand (cmd : command_id) (args : list string).

Definition perform (op : operation) : M unit :=
  match op with
  | OpLoadFen fen => load_fen fen ;; mret tt
  | OpShouldQuit => should_quit ;; mret tt
  | OpKey c => key_callback c
  | OpRedraw => redraw
  | OpCommand cmd args => command_callback cmd args
  end.

Definition session (ops : list operation) : M unit := for_each ops perform.

(** The operations that take the client lock. *)
Definition takes_lock (op : operation) : bool :=
  match op with
  | OpLoadFen _ | OpShouldQuit | OpKey _ => true
  | OpRedraw | OpCommand _ _ => false
  end.

(** The keys of a session, in the order of their delivery. *)
Definition keys_of (ops : list operation) : list ascii :=
  op ← ops; if op is OpKey c then [c] else [].

(** The keys a console has been given, read off the log. *)
Definition keystrokes (cid : nat) (l : list event) : list ascii :=
  e ← l;
  match e with
  | EvProcessKeystroke cid' c => if decide (cid' = cid) then [c] else []
  | _ => []
  end.

(** The accept-input flag after more calls, from a known value. *)
Definition accept_input_from (cid : nat) (flag : option bool) (l : list event)
    : option bool :=
  foldl (λ flag e,
           match e with
           | EvSetAcceptInput cid' b => if decide (cid' = cid) then Some b else flag
           | _ => flag
           end) flag l.

Definition is_remove_key_callback (e : event) : bool :=
  match e with EvRemoveKeyCallback _ => true | _ => false end.

Definition is_lock (e : event) : bool :=
  match e with EvLock | EvUnlock => true | _ => false end.

(** The calls of one operation and the client it leaves. *)
Definition operation_calls (op : operation) (s : state) : list event :=
  let console := m_console (this s) in
  match op with
  | OpLoadFen fen =>
      EvLock :: (if board_create fen is Some b then [EvSetBoard b] else [])
        ++ [EvUnlock]
  | OpShouldQuit => [EvLock; EvReadShouldQuit; EvUnlock]
  | OpKey c =>
      EvLock :: EvProcessKeystroke console c
        :: (_ ← console_dispatch (log s ++ [EvLock; EvProcessKeystroke console c]) c;
            quit_calls console)
        ++ [EvUnlock]
  | OpRedraw =>
      described_frame (mk_coord 0 0) ++ described_tiles (m_engine (this s)) (mk_coord 0 0)
  | OpCommand _ _ => quit_calls console
  end.

Definition operation_client (op : operation) (s : state) : client :=
  let console := m_console (this s) in
  match op with
  | OpLoadFen fen =>
      with_mutex false
        (if board_create fen is Some b then with_engine b (with_mutex true (this s))
         else with_mutex true (this s))
  | OpShouldQuit => with_mutex false (with_mutex true (this s))
  | OpKey c =>
      with_mutex false
        (if console_dispatch (log s ++ [EvLock; EvProcessKeystroke console c]) c is []
         then with_mutex true (this s)
         else with_should_quit true (with_mutex true (this s)))
  | OpRedraw => this s
  | OpCommand _ _ => with_should_quit true (this s)
  end.

Definition after_operation (op : operation) (s : state) : state :=
  mk_state (operation_client op s) (log s ++ operation_calls op s).

Fixpoint after_session (ops : list operation) (s : state) : state :=
  match ops with
  | [] => s
  | op :: ops => after_session ops (after_operation op s)
  end.

(** ** The screen *)

(** The cells a log paints, one entry for each render call. *)
Definition render_cells (l : list event) : list coord :=
  e ← l; if e is EvRender pos _ _ _ then [pos] else [].

(** The cells of the square a board takes on the screen, relative to
    its offset: [2 * width + 1] cells each way. *)
Definition screen_square : list coord :=
  a ← seqZ 0 (2 * board_width + 1);
  b ← seqZ 0 (2 * board_width + 1);
  [mk_coord a b].

(** The box-drawing glyph that belongs on a cell of the frame: a
    vertical bar where only the column is even, a horizontal bar where
    only the row is even, and where both are even a corner in a corner, a
    T towards the inside on a border, a cross inside. *)
Definition frame_glyph (a b : Z) : Z :=
  let last := 2 * board_width in
  if Z.odd b then 0x2551
  else if Z.odd a then 0x2550
  else if a =? 0 then (if b =? 0 then 0x2554 else if b =? last then 0x255a else 0x2560)
  else if a =? last then (if b =? 0 then 0x2557 else if b =? last then 0x255d else 0x2563)
  else if b =? 0 then 0x2566
  else if b =? last then 0x2569
  else 0x256c.

(** The calls of a session, one operation after the other. *)
Fixpoint session_calls (ops : list operation) (s : state) : list event :=
  match ops with
  | [] => []
  | op :: ops => operation_calls op s ++ session_calls ops (after_operation op s)
  end.

(** The calls of a drawing: pieces are fetched and cells are painted. *)
Definition is_drawing_call (e : event) : bool :=
  match e with EvGetPiece _ | EvRender _ _ _ _ => true | _ => false end.

(** What a log paints: the cell and the glyph of each render call. *)
Definition painted (l : list event) : list (coord * Z) :=
  e ← l; if e is EvRender pos glyph _ _ then [(pos, glyph)] else [].

(** The cells of the square with an even coordinate. *)
Definition frame_cells : list coord :=
  List.filter (λ pos, Z.even (coord_x pos) || Z.even (coord_y pos)) screen_square.

End Client.

(** ** An engine for the examples *)

(** A board is the list of its pieces; the factory accepts the position
    string of the empty board and no other. *)
Definition example_board : Type := list (coord * ascii).

Definition example_default : example_board :=
  [(mk_coord 0 0, "R"%char); (mk_coord 4 0, "K"%char);
   (mk_coord 4 7, "k"%char); (mk_coord 7 7, "r"%char)].

Definition example_get_piece (b : example_board) (pos : coord) : option ascii :=
  (λ found, found.2.2) <$> list_find (λ entry, entry.1 = pos) b.

Definition example_collaborators : Collaborators := {|
  board := example_board;
  piece_info_t := option ascii;
  board_create fen :=
    if decide (fen = "8/8/8/8/8/8/8/8 w - - 0 1"%string) then Some [] else None;
  board_create_default := example_default;
  engine_get_piece := example_get_piece;
  serialize_piece piece := piece;
  color_black := 0;
  color_white := 7;
|}.

(** A console that runs the quit command when it receives a newline. *)
Definition example_dispatch (past : list (@event example_collaborators))
    (c : ascii) : list (command_id * list string) :=
  if decide (c = "010"%char) then [(CmdQuit, [])] else [].

Definition example_state : @state example_collaborators :=
  client_ctor (H := example_collaborators) [].

(** A console that runs the quit command on a newline, once input has
    been switched on. *)
Definition example_gated_dispatch (past : list (@event example_collaborators))
    (c : ascii) : list (command_id * list string) :=
  match last past with
  | Some (EvProcessKeystroke cid _) =>
      if decide (accept_input cid past = Some true ∧ c = "010"%char)
      then [(CmdQuit, [])] else []
  | _ => []
  end.

(** The example client as [create] returns it when no position is given. *)
Definition example_created : @state example_collaborators :=
  match create (H := example_collaborators) None [] with
  | (Some c, l) => mk_state c l
  | (None, _) => example_state
  end.

(** * Facts *)

Section ClientFacts.
Context `{Collaborators}.

(** ** Arithmetic of the loops *)

Lemma int32_small (z : Z) : - 2 ^ 31 ≤ z < 2 ^ 31 → int32 z = z.
Proof. intros Hz. unfold int32. rewrite Z.mod_small; lia. Qed.

(** Every index and every screen coordinate of the loops is far from
    the bounds of [int32_t]. *)
Ltac int32_in_range :=
  repeat match goal with
         | |- context [int32 ?z] =>
             rewrite (int32_small z) by (unfold board_width in *; lia)
         end.

Lemma tile_global_described (offset : coord) (x y : Z) :
  0 ≤ x < board_width → 0 ≤ y < board_width →
  tile_global offset x y = described_tile_position offset x y.
Proof.
  intros Hx Hy. unfold tile_global, described_tile_position.
  int32_in_range. f_equal. f_equal; unfold board_width; lia.
Qed.

(** ** Methods that only add calls *)

Lemma paints_emit (e : event) : paints (emit e) (λ _, [e]).
Proof. by intros [c l]. Qed.

Lemma paints_ret : paints (mret tt) (λ _, []).
Proof. intros [c l]. unfold mret, M_ret. simpl. by rewrite app_nil_r. Qed.

Lemma paints_bind (m k : M unit) (calls1 calls2 : client → list event) :
  paints m calls1 → paints k calls2 →
  paints (m ;; k) (λ c, calls1 c ++ calls2 c).
Proof.
  intros Hm Hk s. unfold mbind, M_bind. rewrite Hm, Hk. simpl.
  by rewrite app_assoc.
Qed.

Lemma paints_ext (m : M unit) (calls1 calls2 : client → list event) :
  paints m calls1 → (∀ c, calls1 c = calls2 c) → paints m calls2.
Proof. intros Hm Heq s. by rewrite Hm, Heq. Qed.

Lemma paints_for_each {A} (l : list A) (body : A → M unit)
    (calls : A → client → list event) :
  (∀ a, a ∈ l → paints (body a) (calls a)) →
  paints (for_each l body) (λ c, a ← l; calls a c).
Proof.
  induction l as [|a l IH]; intros Hbody; simpl.
  - apply paints_ret.
  - eapply paints_ext.
    + apply paints_bind; [apply Hbody; left | apply IH].
      intros a' Ha'. apply Hbody. by right.
    + done.
Qed.

Lemma paints_calls_of (m : M unit) (calls : client → list event) (s : state) :
  paints m calls → calls_of m s = calls (this s).
Proof. intros Hm. unfold calls_of. rewrite Hm. simpl. by rewrite drop_app_length. Qed.

Lemma paints_render (pos : coord) (glyph : Z) (fg bg : option Z) :
  paints (renderer_render pos glyph fg bg) (λ _, [EvRender pos glyph fg bg]).
Proof. apply paints_emit. Qed.

(** ** The frame *)

Lemma redraw_board_frame_paints (offset : coord) :
  paints (redraw_board_frame offset) (λ _, described_frame offset).
Proof.
  unfold redraw_board_frame, described_frame.
  eapply paints_ext.
  - apply paints_bind.
    { apply paints_for_each with
        (calls := λ i _, j ← seqZ 0 board_width;
           [EvRender (offset +c mk_coord (2 * i) (1 + 2 * j)) 0x2551 None None;
            EvRender (offset +c mk_coord (1 + 2 * j) (2 * i)) 0x2550 None None]).
      intros i Hi%elem_of_seqZ.
      apply paints_for_each with
        (calls := λ j _,
           [EvRender (offset +c mk_coord (2 * i) (1 + 2 * j)) 0x2551 None None;
            EvRender (offset +c mk_coord (1 + 2 * j) (2 * i)) 0x2550 None None]).
      intros j Hj%elem_of_seqZ. int32_in_range.
      replace (i * 2) with (2 * i) by lia. replace (j * 2) with (2 * j) by lia.
      apply (paints_bind _ _ (λ _, [_]) (λ _, [_])); apply paints_render. }
    apply paints_bind.
    { apply paints_for_each with
        (calls := λ i _, j ← seqZ 0 (board_width - 1);
           [EvRender (offset +c mk_coord (2 + 2 * i) (2 + 2 * j)) 0x256c None None]).
      intros i Hi%elem_of_seqZ.
      apply paints_for_each with
        (calls := λ j _,
           [EvRender (offset +c mk_coord (2 + 2 * i) (2 + 2 * j)) 0x256c None None]).
      intros j Hj%elem_of_seqZ. int32_in_range.
      replace (i * 2) with (2 * i) by lia. replace (j * 2) with (2 * j) by lia.
      apply paints_render. }
    apply paints_bind; [apply paints_render |].
    apply paints_bind; [apply paints_render |].
    apply paints_bind; [apply paints_render |].
    apply paints_bind; [apply paints_render |].
    apply paints_for_each with
      (calls := λ i _,
         [EvRender (offset +c mk_coord (2 + 2 * i) 0) 0x2566 None None;
          EvRender (offset +c mk_coord (2 + 2 * i) 16) 0x2569 None None;
          EvRender (offset +c mk_coord 0 (2 + 2 * i)) 0x2560 None None;
          EvRender (offset +c mk_coord 16 (2 + 2 * i)) 0x2563 None None]).
    intros i Hi%elem_of_seqZ. int32_in_range.
    replace (i * 2) with (2 * i) by lia.
    apply (paints_bind _ _ (λ _, [_]) (λ _, [_; _; _])); [apply paints_render |].
    apply (paints_bind _ _ (λ _, [_]) (λ _, [_; _])); [apply paints_render |].
    apply (paints_bind _ _ (λ _, [_]) (λ _, [_])); apply paints_render.
  - intros c. reflexivity.
Qed.

(** ** The tiles *)

Lemma tile_paints (offset : coord) (x y : Z) :
  0 ≤ x < board_width → 0 ≤ y < board_width →
  paints (piece ← engine_get_piece_at (mk_coord x y);
          renderer_render (tile_global offset x y)
                          (wchar_of_char (piece_character piece))
                          (Some (tile_fg (mk_coord x y)))
                          (Some (tile_bg (mk_coord x y))))
         (λ c, described_tile (m_engine c) offset x y).
Proof.
  intros Hx Hy [c l]. rewrite tile_global_described by done.
  unfold described_tile, engine_get_piece_at, renderer_render, emit, field,
    mbind, mret, M_bind, M_ret. simpl.
  by rewrite <- app_assoc.
Qed.

Lemma redraw_board_paints (offset : coord) :
  paints (redraw_board offset)
         (λ c, described_frame offset ++ described_tiles (m_engine c) offset).
Proof.
  unfold redraw_board. apply paints_bind; [apply redraw_board_frame_paints |].
  apply paints_for_each with
    (calls := λ x c, y ← seqZ 0 board_width; described_tile (m_engine c) offset x y).
  intros x Hx%elem_of_seqZ.
  apply paints_for_each with
    (calls := λ y c, described_tile (m_engine c) offset x y).
  intros y Hy%elem_of_seqZ. apply tile_paints; lia.
Qed.

Lemma redraw_board_returns (offset : coord) (s : state) :
  redraw_board offset s
  = (Returned tt,
     mk_state (this s)
       (log s ++ described_frame offset ++ described_tiles (m_engine (this s)) offset)).
Proof. apply redraw_board_paints. Qed.

(** Cutting a counted loop at one of its indices. *)
Lemma seqZ_cut (n k : Z) :
  0 ≤ k < n → seqZ 0 n = seqZ 0 k ++ k :: seqZ (k + 1) (n - k - 1).
Proof.
  intros Hk. replace n with (k + (n - k)) at 1 by lia.
  rewrite seqZ_app by lia. f_equal. rewrite seqZ_cons by lia.
  repeat f_equal; lia.
Qed.

Lemma fetch_in_tile (b : board) (offset : coord) (x y x' y' : Z) :
  EvGetPiece (mk_coord x y) ∈ described_tile b offset x' y' → x' = x ∧ y' = y.
Proof.
  unfold described_tile. rewrite !elem_of_cons, elem_of_nil.
  intros [Heq | [Heq | []]]; [| discriminate]. by inversion Heq.
Qed.

(** The frame pass makes render calls and no other. *)
Lemma frame_renders (offset : coord) :
  forallb is_render (described_frame offset) = true.
Proof. vm_compute. reflexivity. Qed.

Lemma fetch_not_in_frame (offset : coord) (pos : coord) :
  EvGetPiece pos ∉ described_frame offset.
Proof.
  intros Hin%list_elem_of_In.
  pose proof (proj1 (forallb_forall _ _) (frame_renders offset) _ Hin) as Hr.
  discriminate Hr.
Qed.

Lemma bind_cut {B} (f : Z → list B) (n k : Z) :
  0 ≤ k < n →
  (i ← seqZ 0 n; f i)
  = (i ← seqZ 0 k; f i) ++ f k ++ (i ← seqZ (k + 1) (n - k - 1); f i).
Proof. intros Hk. by rewrite (seqZ_cut n k), bind_app, bind_cons. Qed.

(** The tile of a square is fetched and painted once, by two
    consecutive calls. *)
Lemma redraw_board_tile (s : state) (offset : coord) (x y : Z) :
  0 ≤ x < board_width → 0 ≤ y < board_width →
  ∃ before after,
    calls_of (redraw_board offset) s
    = before ++ described_tile (m_engine (this s)) offset x y ++ after
    ∧ (EvGetPiece (mk_coord x y) ∉ before)
    ∧ (EvGetPiece (mk_coord x y) ∉ after).
Proof.
  intros Hx Hy. rewrite (paints_calls_of _ _ _ (redraw_board_paints offset)).
  set (b := m_engine (this s)). unfold described_tiles.
  rewrite (bind_cut _ board_width x) by done.
  rewrite (bind_cut (λ y', described_tile b offset x y') board_width y) by done.
  eexists (described_frame offset
           ++ (x' ← seqZ 0 x; y' ← seqZ 0 board_width; described_tile b offset x' y')
           ++ (y' ← seqZ 0 y; described_tile b offset x y')),
          ((y' ← seqZ (y + 1) (board_width - y - 1); described_tile b offset x y')
           ++ (x' ← seqZ (x + 1) (board_width - x - 1);
               y' ← seqZ 0 board_width; described_tile b offset x' y')).
  split; [by rewrite <- !app_assoc |].
  split.
  - rewrite !elem_of_app, !list_elem_of_bind.
    intros [Hin | [(x' & Hin & Hx'%elem_of_seqZ) | (y' & Hin & Hy'%elem_of_seqZ)]].
    + by apply fetch_not_in_frame in Hin.
    + apply list_elem_of_bind in Hin as (y' & Hin & _).
      apply fetch_in_tile in Hin. lia.
    + apply fetch_in_tile in Hin. lia.
  - rewrite !elem_of_app, !list_elem_of_bind.
    intros [(y' & Hin & Hy'%elem_of_seqZ) | (x' & Hin & Hx'%elem_of_seqZ)].
    + apply fetch_in_tile in Hin. lia.
    + apply list_elem_of_bind in Hin as (y' & Hin & _).
      apply fetch_in_tile in Hin. lia.
Qed.

(** C4: for every square [(x, y)] of the board and every offset,
    [redraw_board] fetches the piece of the square and paints its glyph
    (the character the piece serializes to, as a signed [char], or a
    blank) at [offset + (1 + 2x, 1 + 2 (width - 1 - y))], once; so rank
    [y = 0] is painted at a strictly larger screen [y] than rank
    [y = width - 1]. *)
Theorem redraw_board_tile_position (s : state) (offset : coord) (x y : Z) :
  0 ≤ x < board_width → 0 ≤ y < board_width →
  let piece := engine_get_piece (m_engine (this s)) (mk_coord x y) in
  let cell := offset +c mk_coord (1 + 2 * x) (1 + 2 * (board_width - 1 - y)) in
  let byte :=
    match serialize_piece piece with
    | Some character => Z.of_nat (nat_of_ascii character)
    | None => 32
    end in
  let glyph := if byte <? 128 then byte else byte - 256 in
  tile_global offset x y = cell
  ∧ (∃ before after,
       calls_of (redraw_board offset) s
       = before
         ++ [EvGetPiece (mk_coord x y);
             EvRender cell glyph
                      (Some (tile_fg (mk_coord x y))) (Some (tile_bg (mk_coord x y)))]
         ++ after
       ∧ (EvGetPiece (mk_coord x y) ∉ before)
       ∧ (EvGetPiece (mk_coord x y) ∉ after))
  ∧ coord_y (tile_global offset x 0) > coord_y (tile_global offset x (board_width - 1)).
Proof.
  intros Hx Hy piece cell byte glyph. split; [| split].
  - by apply tile_global_described.
  - destruct (redraw_board_tile s offset x y Hx Hy)
      as (before & after & Hcalls & Hrest).
    exists before, after. split; [| exact Hrest].
    rewrite Hcalls. unfold described_tile, wchar_of_char, piece_character.
    fold piece. unfold glyph, byte. by destruct (serialize_piece piece).
  - rewrite !tile_global_described by (unfold board_width in *; lia).
    unfold described_tile_position, board_width. simpl. lia.
Qed.

Lemma is_tile_white_parity (x y : Z) :
  0 ≤ x → 0 ≤ y →
  is_tile_white (mk_coord x y) = bool_decide ((x + y) `mod` 2 = 1).
Proof.
  intros Hx Hy. unfold is_tile_white, taxicab_length. simpl.
  rewrite !Z.abs_eq by done. rewrite Z.rem_mod_nonneg by lia.
  pose proof (Z.mod_pos_bound (x + y) 2 eq_refl) as Hmod.
  destruct (Z.eqb_spec ((x + y) `mod` 2) 0) as [Heq | Hne]; simpl.
  - rewrite bool_decide_eq_false_2; [done | lia].
  - rewrite bool_decide_eq_true_2; [done | lia].
Qed.

(** C5: for every square of the board the colours [redraw_board] paints
    with depend on [(x + y) mod 2] alone: foreground black on background
    white when it is 1 (a white tile), the inverse when it is 0; [(0, 0)]
    and [(7, 7)] get the same colours and [(0, 1)] gets them exchanged. *)
Theorem redraw_board_tile_colors (s : state) (offset : coord) (x y : Z) :
  0 ≤ x < board_width → 0 ≤ y < board_width →
  let white := bool_decide ((x + y) `mod` 2 = 1) in
  let fg := if white then color_black else color_white in
  let bg := if white then color_white else color_black in
  is_tile_white (mk_coord x y) = white
  ∧ (∃ before after pos glyph,
       calls_of (redraw_board offset) s
       = before ++ [EvGetPiece (mk_coord x y); EvRender pos glyph (Some fg) (Some bg)]
           ++ after
       ∧ (EvGetPiece (mk_coord x y) ∉ before)
       ∧ (EvGetPiece (mk_coord x y) ∉ after))
  ∧ tile_fg (mk_coord 0 0) = tile_fg (mk_coord 7 7)
  ∧ tile_bg (mk_coord 0 0) = tile_bg (mk_coord 7 7)
  ∧ tile_fg (mk_coord 0 1) = tile_bg (mk_coord 0 0)
  ∧ tile_bg (mk_coord 0 1) = tile_fg (mk_coord 0 0).
Proof.
  intros Hx Hy white fg bg.
  assert (is_tile_white (mk_coord x y) = white) as Hwhite
    by (apply is_tile_white_parity; lia).
  split; [done |]. split; [| done].
  destruct (redraw_board_tile s offset x y Hx Hy) as (before & after & Hcalls & Hrest).
  exists before, after. do 2 eexists. split; [| done].
  rewrite Hcalls. unfold described_tile, tile_fg, tile_bg. by rewrite Hwhite.
Qed.

(** ** Counting the calls *)

Lemma frame_counts (offset : coord) :
  let frame := described_frame offset in
  count_calls (renders_glyph 0x2551) frame = 72%nat
  ∧ count_calls (renders_glyph 0x2550) frame = 72%nat
  ∧ count_calls (renders_glyph 0x256c) frame = 49%nat
  ∧ count_calls (renders_glyph 0x2554) frame = 1%nat
  ∧ count_calls (renders_glyph 0x2557) frame = 1%nat
  ∧ count_calls (renders_glyph 0x255a) frame = 1%nat
  ∧ count_calls (renders_glyph 0x255d) frame = 1%nat
  ∧ count_calls (renders_glyph 0x2566) frame = 7%nat
  ∧ count_calls (renders_glyph 0x2569) frame = 7%nat
  ∧ count_calls (renders_glyph 0x2560) frame = 7%nat
  ∧ count_calls (renders_glyph 0x2563) frame = 7%nat
  ∧ count_calls is_render frame = 225%nat
  ∧ count_calls is_tile_render frame = 0%nat.
Proof. vm_compute. by repeat split. Qed.

Lemma tiles_count (b : board) (offset : coord) :
  count_calls is_tile_render (described_tiles b offset) = 64%nat.
Proof. vm_compute. reflexivity. Qed.

Lemma count_calls_app (p : event → bool) (l1 l2 : list event) :
  count_calls p (l1 ++ l2) = (count_calls p l1 + count_calls p l2)%nat.
Proof. unfold count_calls. by rewrite List.filter_app, length_app. Qed.

Lemma line_segments (offset : coord) (i j : Z) :
  0 ≤ i ≤ board_width → 0 ≤ j < board_width →
  EvRender (offset +c mk_coord (2 * i) (1 + 2 * j)) 0x2551 None None
    ∈ described_frame offset
  ∧ EvRender (offset +c mk_coord (1 + 2 * j) (2 * i)) 0x2550 None None
    ∈ described_frame offset.
Proof.
  intros Hi Hj. unfold described_frame, described_lines.
  split; apply elem_of_app; left;
    apply list_elem_of_bind; exists i; (split; [| apply elem_of_seqZ; lia]);
    apply list_elem_of_bind; exists j; (split; [| apply elem_of_seqZ; lia]).
  - left.
  - right. left.
Qed.

Lemma tiles_without_frame_glyphs (b : board) (offset : coord) (g : Z) :
  count_calls (renders_glyph g) (described_tiles b offset) = 0%nat
  ∧ count_calls is_render (described_tiles b offset) = 64%nat.
Proof. vm_compute. by split. Qed.

(** C6: for every offset, the calls of one [redraw_board] are the calls
    of its frame pass followed by those of the piece loop.  The piece
    loop makes [width * width] (64) tile render calls and paints no
    frame glyph; the frame pass, and so the whole call, makes the calls
    described: [(width - 1)²] (49) four-way intersections, the 4 corner
    glyphs once each, [width - 1] T-intersections on each of the 4
    borders, and [width] segments on each of the [width + 1] vertical
    and [width + 1] horizontal separator lines. *)
Theorem redraw_board_call_counts (s : state) (offset : coord) :
  let all := calls_of (redraw_board offset) s in
  let frame := calls_of (redraw_board_frame offset) s in
  let pieces := drop (length frame) all in
  all = frame ++ pieces
  ∧ Z.of_nat (count_calls is_tile_render pieces) = board_width * board_width
  ∧ Z.of_nat (count_calls is_render pieces) = board_width * board_width
  ∧ Z.of_nat (count_calls is_tile_render all) = board_width * board_width
  ∧ frame = described_frame offset
  ∧ Z.of_nat (count_calls (renders_glyph 0x256c) frame)
    = (board_width - 1) * (board_width - 1)
  ∧ count_calls (renders_glyph 0x2554) frame = 1%nat
  ∧ count_calls (renders_glyph 0x2557) frame = 1%nat
  ∧ count_calls (renders_glyph 0x255a) frame = 1%nat
  ∧ count_calls (renders_glyph 0x255d) frame = 1%nat
  ∧ Z.of_nat (count_calls (renders_glyph 0x2566) frame) = board_width - 1
  ∧ Z.of_nat (count_calls (renders_glyph 0x2569) frame) = board_width - 1
  ∧ Z.of_nat (count_calls (renders_glyph 0x2560) frame) = board_width - 1
  ∧ Z.of_nat (count_calls (renders_glyph 0x2563) frame) = board_width - 1
  ∧ Z.of_nat (count_calls (renders_glyph 0x2551) frame)
    = (board_width + 1) * board_width
  ∧ Z.of_nat (count_calls (renders_glyph 0x2550) frame)
    = (board_width + 1) * board_width
  ∧ (∀ i j, 0 ≤ i ≤ board_width → 0 ≤ j < board_width →
       EvRender (offset +c mk_coord (2 * i) (1 + 2 * j)) 0x2551 None None ∈ frame
       ∧ EvRender (offset +c mk_coord (1 + 2 * j) (2 * i)) 0x2550 None None ∈ frame)
  ∧ Z.of_nat (count_calls (renders_glyph 0x256c) all)
    = (board_width - 1) * (board_width - 1)
  ∧ count_calls (renders_glyph 0x2554) all = 1%nat
  ∧ count_calls (renders_glyph 0x2557) all = 1%nat
  ∧ count_calls (renders_glyph 0x255a) all = 1%nat
  ∧ count_calls (renders_glyph 0x255d) all = 1%nat
  ∧ Z.of_nat (count_calls (renders_glyph 0x2566) all) = board_width - 1
  ∧ Z.of_nat (count_calls (renders_glyph 0x2569) all) = board_width - 1
  ∧ Z.of_nat (count_calls (renders_glyph 0x2560) all) = board_width - 1
  ∧ Z.of_nat (count_calls (renders_glyph 0x2563) all) = board_width - 1
  ∧ Z.of_nat (count_calls (renders_glyph 0x2551) all)
    = (board_width + 1) * board_width
  ∧ Z.of_nat (count_calls (renders_glyph 0x2550) all)
    = (board_width + 1) * board_width
  ∧ (∀ i j, 0 ≤ i ≤ board_width → 0 ≤ j < board_width →
       EvRender (offset +c mk_coord (2 * i) (1 + 2 * j)) 0x2551 None None ∈ all
       ∧ EvRender (offset +c mk_coord (1 + 2 * j) (2 * i)) 0x2550 None None ∈ all)
  ∧ Z.of_nat (count_calls is_render all)
    = (2 * board_width + 1) * (2 * board_width + 1).
Proof.
  intros all frame pieces.
  assert (frame = described_frame offset) as Hframe
    by apply (paints_calls_of _ _ _ (redraw_board_frame_paints offset)).
  assert (all = described_frame offset ++ described_tiles (m_engine (this s)) offset)
    as Hall by apply (paints_calls_of _ _ _ (redraw_board_paints offset)).
  assert (pieces = described_tiles (m_engine (this s)) offset) as Hpieces
    by (unfold pieces; by rewrite Hall, Hframe, drop_app_length).
  destruct (frame_counts offset)
    as (Hv & Hh & Hx & Hc1 & Hc2 & Hc3 & Hc4 & Ht1 & Ht2 & Ht3 & Ht4 & Hrenders & Hnone).
  cbv zeta in Hv, Hh, Hx, Hc1, Hc2, Hc3, Hc4, Ht1, Ht2, Ht3, Ht4, Hrenders, Hnone.
  assert (∀ g, count_calls (renders_glyph g) all
               = count_calls (renders_glyph g) (described_frame offset)) as Hglyph.
  { intros g. rewrite Hall, count_calls_app.
    destruct (tiles_without_frame_glyphs (m_engine (this s)) offset g) as [-> _]. lia. }
  assert (count_calls is_render all = 289%nat) as Hdrawn.
  { rewrite Hall, count_calls_app, Hrenders.
    by destruct (tiles_without_frame_glyphs (m_engine (this s)) offset 0) as [_ ->]. }
  assert (∀ i j, 0 ≤ i ≤ board_width → 0 ≤ j < board_width →
            EvRender (offset +c mk_coord (2 * i) (1 + 2 * j)) 0x2551 None None ∈ all
            ∧ EvRender (offset +c mk_coord (1 + 2 * j) (2 * i)) 0x2550 None None ∈ all)
    as Hsegments.
  { intros i j Hi Hj. rewrite Hall, !elem_of_app.
    destruct (line_segments offset i j Hi Hj). by split; left. }
  assert (Z.of_nat (count_calls is_render pieces) = board_width * board_width)
    as Hpainted.
  { rewrite Hpieces.
    by destruct (tiles_without_frame_glyphs (m_engine (this s)) offset 0) as [_ ->]. }
  rewrite !Hglyph, Hdrawn, Hpieces. rewrite Hpieces in Hpainted.
  rewrite Hall at 1. rewrite Hall, Hframe, count_calls_app, tiles_count.
  rewrite Hv, Hh, Hx, Hc1, Hc2, Hc3, Hc4, Ht1, Ht2, Ht3, Ht4, Hnone.
  split; [done |]. split; [done |]. split; [exact Hpainted |].
  rewrite Hall in Hsegments.
  repeat split; try reflexivity; try (by apply line_segments); by apply Hsegments.
Qed.

(** ** Empty squares *)

Lemma piece_character_blank (piece : piece_info_t) :
  serialize_piece piece = None → wchar_of_char (piece_character piece) = 32.
Proof. intros Hnone. unfold piece_character. by rewrite Hnone. Qed.

(** C9: for every square of the board whose piece serializes to no
    character, [redraw_board] paints the blank glyph [' '] (code 32) on
    that square, and the call returns without an error. *)
Theorem redraw_board_blank_square (s : state) (offset : coord) (x y : Z) :
  0 ≤ x < board_width → 0 ≤ y < board_width →
  serialize_piece (engine_get_piece (m_engine (this s)) (mk_coord x y)) = None →
  (redraw_board offset s).1 = Returned tt
  ∧ (∀ piece, serialize_piece piece = None → piece_character piece = " "%char)
  ∧ ∃ before after,
      calls_of (redraw_board offset) s
      = before
        ++ [EvGetPiece (mk_coord x y);
            EvRender (tile_global offset x y) (wchar_of_char " ")
                     (Some (tile_fg (mk_coord x y))) (Some (tile_bg (mk_coord x y)))]
        ++ after
      ∧ (EvGetPiece (mk_coord x y) ∉ before)
      ∧ (EvGetPiece (mk_coord x y) ∉ after).
Proof.
  intros Hx Hy Hnone. split; [| split].
  - by rewrite redraw_board_returns.
  - intros piece Hpiece. unfold piece_character. by rewrite Hpiece.
  - destruct (redraw_board_tile s offset x y Hx Hy) as (before & after & Hcalls & Hrest).
    exists before, after. split; [| done].
    rewrite Hcalls. unfold described_tile.
    rewrite (piece_character_blank _ Hnone), tile_global_described by done.
    reflexivity.
Qed.

(** ** Tiles and frame on the screen *)

Lemma tile_global_injective (offset : coord) (x y x' y' : Z) :
  0 ≤ x < board_width → 0 ≤ y < board_width →
  0 ≤ x' < board_width → 0 ≤ y' < board_width →
  tile_global offset x y = tile_global offset x' y' → x = x' ∧ y = y'.
Proof.
  intros Hx Hy Hx' Hy'. rewrite !tile_global_described by done.
  unfold described_tile_position, coord_add. simpl.
  intros Heq. inversion Heq. lia.
Qed.

Lemma described_frame_translate (offset : coord) :
  described_frame offset = translate offset <$> described_frame (mk_coord 0 0).
Proof. vm_compute. reflexivity. Qed.

Lemma frame_on_even_lines :
  forallb on_even_line (described_frame (mk_coord 0 0)) = true.
Proof. vm_compute. reflexivity. Qed.

Lemma frame_cell (offset pos : coord) (glyph : Z) (fg bg : option Z) :
  EvRender pos glyph fg bg ∈ described_frame offset →
  Z.even (coord_x pos - coord_x offset) = true
  ∨ Z.even (coord_y pos - coord_y offset) = true.
Proof.
  rewrite described_frame_translate. intros (e & Heq & Hin)%list_elem_of_fmap.
  apply list_elem_of_In in Hin.
  pose proof (proj1 (forallb_forall _ _) frame_on_even_lines _ Hin) as Heven.
  destruct e as [| | | | | | | | |pos' glyph' [fg'|] [bg'|] | | | |]; try discriminate.
  inversion Heq; subst. simpl.
  replace (coord_x offset + coord_x pos' - coord_x offset) with (coord_x pos') by lia.
  replace (coord_y offset + coord_y pos' - coord_y offset) with (coord_y pos') by lia.
  by apply orb_true_iff.
Qed.

Lemma tile_cell (b : board) (offset pos : coord) (glyph : Z) (fg bg : option Z) :
  EvRender pos glyph fg bg ∈ described_tiles b offset →
  Z.odd (coord_x pos - coord_x offset) = true
  ∧ Z.odd (coord_y pos - coord_y offset) = true.
Proof.
  unfold described_tiles.
  intros (x & (y & Hin & Hy%elem_of_seqZ)%list_elem_of_bind & Hx%elem_of_seqZ)
    %list_elem_of_bind.
  unfold described_tile in Hin. rewrite !elem_of_cons, elem_of_nil in Hin.
  destruct Hin as [Heq | [Heq | []]]; [discriminate |].
  inversion Heq; subst. unfold described_tile_position. simpl.
  replace (coord_x offset + (1 + 2 * x) - coord_x offset) with (1 + 2 * x) by lia.
  replace (coord_y offset + (1 + 2 * (board_width - 1 - y)) - coord_y offset)
    with (1 + 2 * (board_width - 1 - y)) by lia.
  by rewrite !Z.odd_add_mul_2.
Qed.

Lemma tile_render_not_in_frame (offset pos : coord) (glyph fg bg : Z) :
  EvRender pos glyph (Some fg) (Some bg) ∉ described_frame offset.
Proof.
  intros Hin%list_elem_of_In.
  pose proof (frame_counts offset) as (_ & _ & _ & _ & _ & _ & _ & _ & _ & _ & _ & _ & Hnone).
  unfold count_calls in Hnone. apply length_zero_iff_nil in Hnone.
  assert (In (EvRender pos glyph (Some fg) (Some bg))
             (List.filter is_tile_render (described_frame offset))) as Hfiltered
    by (by apply filter_In).
  by rewrite Hnone in Hfiltered.
Qed.

(** C10: for every offset the map from squares to screen cells is
    injective on the board; every tile is painted on a cell whose two
    coordinates are odd relative to the offset, every call of the frame
    pass is on a cell with an even relative coordinate, and so no cell
    is painted both by a tile call and by the frame pass. *)
Theorem tile_cells_apart_from_frame (s : state) (offset : coord) :
  let all := calls_of (redraw_board offset) s in
  let frame := calls_of (redraw_board_frame offset) s in
  (∀ x y x' y',
     0 ≤ x < board_width → 0 ≤ y < board_width →
     0 ≤ x' < board_width → 0 ≤ y' < board_width →
     tile_global offset x y = tile_global offset x' y' → x = x' ∧ y = y')
  ∧ (∀ pos glyph fg bg,
       EvRender pos glyph (Some fg) (Some bg) ∈ all →
       Z.odd (coord_x pos - coord_x offset) = true
       ∧ Z.odd (coord_y pos - coord_y offset) = true)
  ∧ (∀ pos glyph fg bg,
       EvRender pos glyph fg bg ∈ frame →
       Z.even (coord_x pos - coord_x offset) = true
       ∨ Z.even (coord_y pos - coord_y offset) = true)
  ∧ (∀ pos glyph fg bg glyph' fg' bg',
       EvRender pos glyph (Some fg) (Some bg) ∈ all →
       EvRender pos glyph' fg' bg' ∈ frame → False).
Proof.
  intros all frame.
  assert (frame = described_frame offset) as ->
    by apply (paints_calls_of _ _ _ (redraw_board_frame_paints offset)).
  assert (all = described_frame offset ++ described_tiles (m_engine (this s)) offset)
    as -> by apply (paints_calls_of _ _ _ (redraw_board_paints offset)).
  assert (∀ pos glyph fg bg,
            EvRender pos glyph (Some fg) (Some bg)
              ∈ described_frame offset ++ described_tiles (m_engine (this s)) offset →
            Z.odd (coord_x pos - coord_x offset) = true
            ∧ Z.odd (coord_y pos - coord_y offset) = true) as Htiles.
  { intros pos glyph fg bg [Hin | Hin]%elem_of_app.
    - by apply tile_render_not_in_frame in Hin.
    - by apply tile_cell in Hin. }
  split; [apply tile_global_injective |].
  split; [done |].
  split; [apply frame_cell |].
  intros pos glyph fg bg glyph' fg' bg' Htile Hframe.
  apply Htiles in Htile as [Hoddx Hoddy].
  apply frame_cell in Hframe.
  rewrite <- !Z.negb_odd, Hoddx, Hoddy in Hframe. by destruct Hframe.
Qed.

End ClientFacts.

Section LifecycleFacts.
Context `{Collaborators}.

(** ** Handles of the renderer *)

Lemma filter_keeps_others (h : nat) (reg : list nat) :
  h ∉ reg → filter (λ h', h' ≠ h) reg = reg.
Proof.
  induction reg as [|h' reg IH]; [done |].
  rewrite not_elem_of_cons. intros [Hne Hnotin].
  rewrite filter_cons_True by done. by rewrite IH.
Qed.

Lemma fresh_callback_snoc (l : list event) (e : event) :
  fresh_callback (l ++ [e])
  = (fresh_callback l + (if is_add_key_callback e then 1 else 0))%nat.
Proof.
  unfold fresh_callback. rewrite List.filter_app, length_app.
  by destruct e.
Qed.

Lemma registered_callbacks_snoc (l : list event) (e : event) :
  registered_callbacks (l ++ [e])
  = match e with
    | EvAddKeyCallback h => registered_callbacks l ++ [h]
    | EvRemoveKeyCallback h => filter (λ h', h' ≠ h) (registered_callbacks l)
    | _ => registered_callbacks l
    end.
Proof. unfold registered_callbacks. by rewrite foldl_snoc. Qed.

Lemma handles_as_issued_prefix (l : list event) (e : event) :
  handles_as_issued (l ++ [e]) → handles_as_issued l.
Proof.
  intros Hissued before h after ->. apply (Hissued before h (after ++ [e])).
  by rewrite <- app_assoc.
Qed.

(** The renderer never holds a handle it has yet to hand out. *)
Lemma registered_callbacks_issued (l : list event) :
  handles_as_issued l →
  Forall (λ h, (h < fresh_callback l)%nat) (registered_callbacks l).
Proof.
  induction l as [|e l IH] using rev_ind; intros Hissued; [constructor |].
  specialize (IH (handles_as_issued_prefix _ _ Hissued)).
  rewrite registered_callbacks_snoc, fresh_callback_snoc.
  destruct e; cbn [is_add_key_callback]; rewrite ?Nat.add_0_r; try done.
  - apply Forall_app. split.
    + eapply Forall_impl; [exact IH |]. intros h' Hh'. simpl in Hh'. lia.
    + rewrite (Hissued l h []) by done. repeat constructor. lia.
  - rewrite Forall_forall in IH. apply Forall_forall.
    intros h' [_ Hin]%list_elem_of_filter. by apply IH.
Qed.

Lemma fresh_callback_not_registered (l : list event) :
  handles_as_issued l → fresh_callback l ∉ registered_callbacks l.
Proof.
  intros Hissued Hin.
  pose proof (registered_callbacks_issued l Hissued) as Hbelow.
  rewrite Forall_forall in Hbelow. apply Hbelow in Hin. lia.
Qed.

(** ** Creation *)

Lemma load_fen_invalid (fen : string) (s : state) :
  board_create fen = None →
  load_fen fen s
  = (Returned false,
     mk_state (with_mutex false (with_mutex true (this s)))
              (log s ++ [EvLock; EvUnlock])).
Proof.
  intros Hbad. destruct s as [c l].
  unfold load_fen, mutex_lock, scoped. rewrite Hbad. simpl.
  by rewrite <- app_assoc.
Qed.

Lemma load_fen_valid (fen : string) (b : board) (s : state) :
  board_create fen = Some b →
  load_fen fen s
  = (Returned true,
     mk_state (with_mutex false (with_engine b (with_mutex true (this s))))
              (log s ++ [EvLock; EvSetBoard b; EvUnlock])).
Proof.
  intros Hgood. destruct s as [c l].
  unfold load_fen, mutex_lock, scoped. rewrite Hgood. simpl.
  by rewrite <- !app_assoc.
Qed.

Lemma client_ctor_calls (l : list event) :
  client_ctor l
  = mk_state (mk_client board_create_default (fresh_callback l) false
                        (fresh_console l) false)
             (l ++ [EvSetBoard board_create_default;
                    EvAddKeyCallback (fresh_callback l);
                    EvWriteShouldQuit false;
                    EvConsoleCreate (fresh_console l)]).
Proof.
  unfold client_ctor, renderer_add_key_callback, game_console_create.
  unfold fresh_callback, fresh_console.
  rewrite !List.filter_app, !length_app. simpl. rewrite !Nat.add_0_r.
  by rewrite <- !app_assoc.
Qed.

(** What [create] does with a string the board factory rejects. *)
Lemma create_invalid (fen : string) (l : list event) :
  board_create fen = None →
  create (Some fen) l
  = (None,
     l ++ [EvSetBoard board_create_default;
           EvAddKeyCallback (fresh_callback l);
           EvWriteShouldQuit false;
           EvConsoleCreate (fresh_console l);
           EvLock; EvUnlock;
           EvRemoveKeyCallback (fresh_callback l)]).
Proof.
  intros Hbad. unfold create.
  rewrite client_ctor_calls, (load_fen_invalid _ _ Hbad). simpl.
  by rewrite <- !app_assoc.
Qed.

(** C1, as the code has it: for every position string the board factory
    rejects, [create] returns no instance, makes no render call,
    registers no command and never touches the accept-input flag, and the
    key callback its constructor registered is removed again, so a
    renderer that hands out a handle it does not hold at the time holds
    the callbacks it held before; but the constructor has by then
    created a console. *)
Theorem create_invalid_unwinds (fen : string) (l : list event) :
  board_create fen = None →
  fresh_callback l ∉ registered_callbacks l →
  let h := fresh_callback l in
  let console := fresh_console l in
  (create (Some fen) l).1 = None
  ∧ (create (Some fen) l).2
    = l ++ [EvSetBoard board_create_default; EvAddKeyCallback h;
            EvWriteShouldQuit false; EvConsoleCreate console;
            EvLock; EvUnlock; EvRemoveKeyCallback h]
  ∧ registered_callbacks (create (Some fen) l).2 = registered_callbacks l
  ∧ count_calls is_render (drop (length l) (create (Some fen) l).2) = 0%nat
  ∧ EvConsoleCreate console ∈ drop (length l) (create (Some fen) l).2.
Proof.
  intros Hbad Hnew h console. rewrite (create_invalid _ _ Hbad).
  cbn [fst snd]. rewrite drop_app_length.
  split; [done |]. split; [done |]. split; [| split].
  - unfold registered_callbacks. rewrite foldl_app. cbn [foldl].
    rewrite filter_app, filter_cons_False, filter_nil, app_nil_r by (intros Hne; done).
    by apply filter_keeps_others.
  - reflexivity.
  - do 3 right. left.
Qed.

Lemma register_commands_calls (s : state) :
  register_commands s
  = (Returned tt,
     mk_state (this s)
       (log s ++ [EvAddAlias (m_console (this s)) "quit";
                  EvSetCallback (m_console (this s)) CmdQuit])).
Proof.
  destruct s as [c l]. unfold register_commands, emit, field, mbind, M_bind.
  simpl. by rewrite <- app_assoc.
Qed.

Lemma redraw_calls (s : state) :
  redraw s
  = (Returned tt,
     mk_state (this s)
       (log s ++ described_frame (mk_coord 0 0)
              ++ described_tiles (m_engine (this s)) (mk_coord 0 0))).
Proof. unfold redraw. by rewrite redraw_board_returns. Qed.

(** After the constructor and a successful [load_fen], the rest of
    [create]. *)
Lemma create_finish (s : state) :
  (register_commands ;;
   redraw ;;
   console ← field m_console;
   set_accept_input console true) s
  = (Returned tt,
     mk_state (this s)
       (log s ++ [EvAddAlias (m_console (this s)) "quit";
                  EvSetCallback (m_console (this s)) CmdQuit]
              ++ (described_frame (mk_coord 0 0)
                  ++ described_tiles (m_engine (this s)) (mk_coord 0 0))
              ++ [EvSetAcceptInput (m_console (this s)) true])).
Proof.
  unfold mbind, M_bind. rewrite register_commands_calls, redraw_calls.
  unfold field, set_accept_input, emit. cbn [this log].
  by rewrite <- !app_assoc.
Qed.

Lemma drawing_only_reads (b : board) :
  forallb (λ e, negb (is_set_board e) && negb (is_set_accept_input e))
          (described_frame (mk_coord 0 0) ++ described_tiles b (mk_coord 0 0))
  = true.
Proof. vm_compute. reflexivity. Qed.

(** ** Commands *)

Lemma quit_callback_calls (args : list string) (s : state) :
  command_callback CmdQuit args s
  = (Returned tt,
     mk_state (with_should_quit true (this s))
              (log s ++ quit_calls (m_console (this s)))).
Proof.
  destruct s as [c l]. unfold command_callback, BIND_CLIENT_COMMAND, console_lock,
    scoped, command_quit, set_accept_input, emit, update, field, mbind, M_bind.
  simpl. by rewrite <- !app_assoc.
Qed.

Lemma accept_input_set (console : nat) (l k : list event) (b : bool) :
  accept_input console (l ++ k ++ [EvSetAcceptInput console b]) = Some b.
Proof.
  unfold accept_input. rewrite app_assoc, foldl_snoc. by rewrite decide_True.
Qed.

Lemma accept_input_kept (console : nat) (l : list event) (b q : bool) :
  accept_input console (l ++ [EvSetAcceptInput console b; EvWriteShouldQuit q])
  = Some b.
Proof.
  unfold accept_input. rewrite foldl_app. cbn [foldl]. by rewrite decide_True.
Qed.

Lemma bind_client_command_calls {A} (func : list string → M A)
    (args : list string) (s : state) :
  BIND_CLIENT_COMMAND func args s
  = ((func args (mk_state (this s)
                   (log s ++ [EvSetAcceptInput (m_console (this s)) false]))).1,
     mk_state
       (this (func args (mk_state (this s)
                (log s ++ [EvSetAcceptInput (m_console (this s)) false]))).2)
       (log (func args (mk_state (this s)
                (log s ++ [EvSetAcceptInput (m_console (this s)) false]))).2
        ++ [EvSetAcceptInput (m_console (this s)) true])).
Proof.
  unfold BIND_CLIENT_COMMAND, console_lock, scoped, set_accept_input, emit, field,
    mbind, M_bind. cbn [this log].
  by destruct (func args _) as [r s2].
Qed.

(** C3: for every command function, whether it returns or throws, the
    callback [BIND_CLIENT_COMMAND] makes of it switches the accept-input
    flag of the console off before the function runs and on again when
    it is left, and hands on what the function returned or threw; while
    a registered command runs the flag is off. *)
Theorem console_lock_around_command {A} (func : list string → M A)
    (args : list string) (s : state) :
  let console := m_console (this s) in
  let entered := mk_state (this s) (log s ++ [EvSetAcceptInput console false]) in
  let left := func args entered in
  BIND_CLIENT_COMMAND func args s
  = (left.1, mk_state (this left.2) (log left.2 ++ [EvSetAcceptInput console true]))
  ∧ accept_input console (log entered) = Some false
  ∧ accept_input console (log (BIND_CLIENT_COMMAND func args s).2) = Some true
  ∧ (∀ cmd n,
       (0 < n < length (calls_of (command_callback cmd args) s))%nat →
       accept_input console (log s ++ take n (calls_of (command_callback cmd args) s))
       = Some false)
  ∧ (∀ cmd,
       accept_input console (log s ++ calls_of (command_callback cmd args) s)
       = Some true).
Proof.
  intros console entered left.
  assert (∀ cmd, calls_of (command_callback cmd args) s = quit_calls console)
    as Hcalls.
  { intros []. unfold calls_of. rewrite quit_callback_calls.
    cbn [snd log]. by rewrite drop_app_length. }
  split; [apply bind_client_command_calls |].
  split; [apply (accept_input_set _ _ []) |].
  split; [rewrite bind_client_command_calls; apply (accept_input_set _ _ []) |].
  split.
  - intros cmd n. rewrite Hcalls. unfold quit_calls. cbn [length]. intros Hn.
    assert (n = 1 ∨ n = 2)%nat as [-> | ->] by lia; cbn [take].
    + apply (accept_input_set _ _ []).
    + apply accept_input_kept.
  - intros cmd. rewrite Hcalls. apply (accept_input_set _ _ [_; _]).
Qed.

Lemma with_should_quit_twice (q : bool) (c : client) :
  with_should_quit q (with_should_quit q c) = with_should_quit q c.
Proof. by destruct c. Qed.

Lemma quit_repeated (argss : list (list string)) (s : state) :
  argss ≠ [] →
  for_each argss (command_callback CmdQuit) s
  = (Returned tt,
     mk_state (with_should_quit true (this s))
              (log s ++ (_ ← argss; quit_calls (m_console (this s))))).
Proof.
  revert s. induction argss as [|args argss IH]; [done |]. intros s _.
  cbn [for_each]. unfold mbind at 1, M_bind. rewrite quit_callback_calls.
  destruct argss as [|args' argss].
  - destruct s as [c l]. cbn [for_each]. unfold mret, M_ret. cbn [this log].
    by rewrite bind_cons.
  - rewrite IH by done. cbn [this log]. rewrite with_should_quit_twice.
    rewrite (bind_cons _ args). by rewrite <- app_assoc.
Qed.

(** C8: running the quit command once or more, with any arguments,
    returns without an error and leaves [should_quit] true and every
    other field of the client as it was: the same client as after one
    run; the command does not look at its arguments. *)
Theorem quit_any_number_of_times (argss : list (list string)) (s : state) :
  argss ≠ [] →
  let after := for_each argss (command_callback CmdQuit) s in
  after.1 = Returned tt
  ∧ m_should_quit (this after.2) = true
  ∧ m_engine (this after.2) = m_engine (this s)
  ∧ m_key_callback (this after.2) = m_key_callback (this s)
  ∧ m_console (this after.2) = m_console (this s)
  ∧ m_mutex (this after.2) = m_mutex (this s)
  ∧ (∀ args, this after.2 = this (command_callback CmdQuit args s).2)
  ∧ (∀ args args', command_quit args = command_quit args').
Proof.
  intros Hsome after. unfold after. rewrite (quit_repeated _ _ Hsome).
  cbn [fst snd this]. do 6 (split; [done |]).
  split; [| done]. intros args. by rewrite quit_callback_calls.
Qed.

(** ** The client lock *)

Variable console_dispatch : list event → ascii → list (command_id * list string).

Lemma dispatch_calls (calls : list (command_id * list string)) (s : state) :
  for_each calls (λ call, command_callback call.1 call.2) s
  = (Returned tt,
     mk_state (if calls is [] then this s else with_should_quit true (this s))
              (log s ++ (_ ← calls; quit_calls (m_console (this s))))).
Proof.
  revert s. induction calls as [|[[] args] calls IH]; intros [c l].
  - cbn [for_each]. unfold mret, M_ret. cbn [this log]. by rewrite app_nil_r.
  - cbn [for_each fst snd]. unfold mbind at 1, M_bind.
    rewrite quit_callback_calls, IH. cbn [this log m_console with_should_quit].
    rewrite bind_cons, <- app_assoc. by destruct calls.
Qed.

Lemma guarded_dispatched (calls : list (command_id * list string))
    (console : nat) (rest : list event) :
  guarded true ((_ ← calls; quit_calls console) ++ rest) = guarded true rest.
Proof.
  induction calls as [|call calls IH]; [done |].
  rewrite bind_cons, <- app_assoc. exact IH.
Qed.

Lemma key_callback_calls (c : ascii) (s : state) :
  let console := m_console (this s) in
  let dispatched :=
    console_dispatch (log s ++ [EvLock; EvProcessKeystroke console c]) c in
  key_callback console_dispatch c s
  = (Returned tt,
     mk_state
       (with_mutex false
          (if dispatched is [] then with_mutex true (this s)
           else with_should_quit true (with_mutex true (this s))))
       (log s ++ [EvLock; EvProcessKeystroke console c]
              ++ (_ ← dispatched; quit_calls console) ++ [EvUnlock])).
Proof.
  intros console dispatched. destruct s as [c0 l].
  unfold key_callback, mutex_lock, scoped, process_keystroke, history, emit,
    update, field. unfold mbind at 1 2 3 4 5 6, M_bind.
  cbn [this log m_console with_mutex]. rewrite <- app_assoc. cbn [app].
  rewrite dispatch_calls. cbn [this log m_console with_mutex].
  subst console dispatched. cbn [this log]. by rewrite <- !app_assoc.
Qed.

Lemma should_quit_calls (s : state) :
  should_quit s
  = (Returned (m_should_quit (this s)),
     mk_state (with_mutex false (with_mutex true (this s)))
              (log s ++ [EvLock; EvReadShouldQuit; EvUnlock])).
Proof.
  destruct s as [c0 l].
  unfold should_quit, mutex_lock, scoped, emit, update, field, mbind, M_bind.
  simpl. by rewrite <- !app_assoc.
Qed.

Lemma load_fen_guarded (fen : string) (s : state) :
  guarded false (calls_of (load_fen fen) s) = true
  ∧ m_mutex (this (load_fen fen s).2) = false.
Proof.
  unfold calls_of. destruct (board_create fen) as [b|] eqn:Hboard.
  - rewrite (load_fen_valid _ _ _ Hboard). cbn [snd log this].
    by rewrite drop_app_length.
  - rewrite (load_fen_invalid _ _ Hboard). cbn [snd log this].
    by rewrite drop_app_length.
Qed.

(** C2, as the code has it: [load_fen], [should_quit] and
    [key_callback] take the client lock first, make every read and
    write of the engine state and of [should_quit] while they hold it
    (the writes of the quit callbacks the console runs for the keystroke
    among them), and have released it when they return; the quit
    callback takes no lock of its own, so its write is guarded exactly
    when its caller holds the lock. *)
Theorem client_lock_discipline (fen : string) (c : ascii) (args : list string)
    (s : state) :
  let typed := calls_of (key_callback console_dispatch c) s in
  let quit := calls_of (command_callback CmdQuit args) s in
  guarded false (calls_of (load_fen fen) s) = true
  ∧ m_mutex (this (load_fen fen s).2) = false
  ∧ calls_of should_quit s = [EvLock; EvReadShouldQuit; EvUnlock]
  ∧ guarded false (calls_of should_quit s) = true
  ∧ m_mutex (this (should_quit s).2) = false
  ∧ head typed = Some EvLock
  ∧ last typed = Some EvUnlock
  ∧ guarded false typed = true
  ∧ m_mutex (this (key_callback console_dispatch c s).2) = false
  ∧ quit
    = [EvSetAcceptInput (m_console (this s)) false; EvWriteShouldQuit true;
       EvSetAcceptInput (m_console (this s)) true]
  ∧ (∀ held, guarded held quit = held).
Proof.
  intros typed quit.
  assert (quit = quit_calls (m_console (this s))) as Hquit.
  { unfold quit, calls_of. rewrite quit_callback_calls. cbn [snd log].
    by rewrite drop_app_length. }
  assert (calls_of should_quit s = [EvLock; EvReadShouldQuit; EvUnlock]) as Hread.
  { unfold calls_of. rewrite should_quit_calls. cbn [snd log].
    by rewrite drop_app_length. }
  assert (∃ dispatched : list (command_id * list string),
            typed = EvLock :: EvProcessKeystroke (m_console (this s)) c
                      :: (_ ← dispatched; quit_calls (m_console (this s)))
                         ++ [EvUnlock]) as [dispatched Htyped].
  { eexists. unfold typed, calls_of. rewrite key_callback_calls. cbn [snd log].
    by rewrite drop_app_length. }
  destruct (load_fen_guarded fen s) as [Hload Hfree].
  split; [exact Hload |]. split; [exact Hfree |].
  split; [exact Hread |]. split; [by rewrite Hread |].
  split; [by rewrite should_quit_calls |].
  split; [by rewrite Htyped |].
  split; [by rewrite Htyped, !app_comm_cons, last_snoc |].
  split.
  { rewrite Htyped. cbn [guarded touches_client_state negb orb andb].
    by rewrite guarded_dispatched. }
  split; [by rewrite key_callback_calls |].
  split; [exact Hquit |].
  intros held. rewrite Hquit. by destruct held.
Qed.

End LifecycleFacts.

Section SessionFacts.
Context `{Collaborators}.
Variable console_dispatch : list event → ascii → list (command_id * list string).

(** ** One operation *)

Lemma perform_run (op : operation) (s : state) :
  perform console_dispatch op s
  = (Returned tt, after_operation console_dispatch op s).
Proof.
  destruct op as [fen | | c | | [] args];
    unfold perform, after_operation, operation_calls, operation_client.
  - unfold mbind, M_bind. destruct (board_create fen) as [b|] eqn:Hboard.
    + by rewrite (load_fen_valid _ _ _ Hboard).
    + by rewrite (load_fen_invalid _ _ Hboard).
  - unfold mbind, M_bind. by rewrite should_quit_calls.
  - by rewrite key_callback_calls.
  - by rewrite redraw_calls.
  - by rewrite quit_callback_calls.
Qed.

Lemma session_run (ops : list operation) (s : state) :
  session console_dispatch ops s
  = (Returned tt, after_session console_dispatch ops s).
Proof.
  revert s. induction ops as [|op ops IH]; intros s; [done |].
  unfold session in *. cbn [for_each after_session].
  unfold mbind at 1, M_bind. by rewrite perform_run, IH.
Qed.

Lemma after_session_log (ops : list operation) (s : state) :
  log (after_session console_dispatch ops s)
  = log s ++ session_calls console_dispatch ops s.
Proof.
  revert s. induction ops as [|op ops IH]; intros s; cbn [after_session session_calls].
  - by rewrite app_nil_r.
  - rewrite IH. unfold after_operation at 1. cbn [log]. by rewrite <- app_assoc.
Qed.

Lemma session_calls_of (ops : list operation) (s : state) :
  calls_of (session console_dispatch ops) s = session_calls console_dispatch ops s.
Proof.
  unfold calls_of. rewrite session_run. cbn [snd].
  by rewrite after_session_log, drop_app_length.
Qed.

(** What no operation changes. *)
Lemma after_operation_ids (op : operation) (s : state) :
  m_console (this (after_operation console_dispatch op s)) = m_console (this s)
  ∧ m_key_callback (this (after_operation console_dispatch op s))
    = m_key_callback (this s).
Proof.
  destruct op; unfold after_operation, operation_client; cbn [this];
    repeat case_match; done.
Qed.

Lemma after_operation_mutex (op : operation) (s : state) :
  m_mutex (this s) = false →
  m_mutex (this (after_operation console_dispatch op s)) = false.
Proof.
  intros Hfree. destruct op; unfold after_operation, operation_client; cbn [this];
    repeat case_match; done.
Qed.

Lemma after_operation_should_quit (op : operation) (s : state) :
  m_should_quit (this s) = true →
  m_should_quit (this (after_operation console_dispatch op s)) = true.
Proof.
  intros Hquit. destruct op; unfold after_operation, operation_client; cbn [this];
    repeat case_match; done.
Qed.

Lemma after_session_ids (ops : list operation) (s : state) :
  m_console (this (after_session console_dispatch ops s)) = m_console (this s)
  ∧ m_key_callback (this (after_session console_dispatch ops s))
    = m_key_callback (this s).
Proof.
  revert s. induction ops as [|op ops IH]; intros s; [done |].
  cbn [after_session]. destruct (IH (after_operation console_dispatch op s)) as [-> ->].
  apply after_operation_ids.
Qed.

(** ** Reading the calls of an operation *)

Lemma forallb_weaken (p q : event → bool) (l : list event) :
  (∀ e, p e = true → q e = true) → forallb p l = true → forallb q l = true.
Proof.
  intros Himpl. rewrite !forallb_forall. intros Hp e Hin. by apply Himpl, Hp.
Qed.

Lemma forallb_dispatched (p : event → bool) (calls : list (command_id * list string))
    (console : nat) :
  forallb p (quit_calls console) = true →
  forallb p (_ ← calls; quit_calls console) = true.
Proof.
  intros Hquit. induction calls as [|call calls IH]; [done |].
  rewrite bind_cons, forallb_app. by rewrite Hquit, IH.
Qed.

Lemma drawing_calls (b : board) :
  forallb is_drawing_call
          (described_frame (mk_coord 0 0) ++ described_tiles b (mk_coord 0 0))
  = true.
Proof. vm_compute. reflexivity. Qed.

Lemma accept_input_app (console : nat) (l k : list event) :
  accept_input console (l ++ k)
  = accept_input_from console (accept_input console l) k.
Proof. unfold accept_input, accept_input_from. by rewrite foldl_app. Qed.

Lemma accept_input_from_app (console : nat) (flag : option bool) (l k : list event) :
  accept_input_from console flag (l ++ k)
  = accept_input_from console (accept_input_from console flag l) k.
Proof. unfold accept_input_from. by rewrite foldl_app. Qed.

Lemma accept_input_from_drawing (console : nat) (flag : option bool)
    (l : list event) :
  forallb is_drawing_call l = true → accept_input_from console flag l = flag.
Proof.
  induction l as [|e l IH]; [done |]. cbn [forallb].
  intros [He Hl]%andb_true_iff. unfold accept_input_from in *. cbn [foldl].
  by destruct e; try discriminate; apply IH.
Qed.

Lemma accept_input_from_quit (console : nat) (flag : option bool) :
  accept_input_from console flag (quit_calls console) = Some true.
Proof. unfold accept_input_from, quit_calls. cbn [foldl]. by rewrite !decide_True. Qed.

Lemma accept_input_from_dispatched (console : nat)
    (calls : list (command_id * list string)) :
  accept_input_from console (Some true) (_ ← calls; quit_calls console) = Some true.
Proof.
  induction calls as [|call calls IH]; [done |].
  by rewrite bind_cons, accept_input_from_app, accept_input_from_quit.
Qed.

(** Every operation leaves the console accepting input if it found it
    so. *)
Lemma operation_reopens (op : operation) (s : state) :
  accept_input_from (m_console (this s)) (Some true)
                    (operation_calls console_dispatch op s)
  = Some true.
Proof.
  destruct op as [fen | | c | | cmd args]; unfold operation_calls.
  - by destruct (board_create fen).
  - done.
  - rewrite !app_comm_cons, accept_input_from_app.
    change (accept_input_from (m_console (this s)) (Some true)
              (EvLock :: EvProcessKeystroke (m_console (this s)) c :: ?l))
      with (accept_input_from (m_console (this s)) (Some true) l).
    by rewrite accept_input_from_dispatched.
  - apply accept_input_from_drawing, drawing_calls.
  - apply accept_input_from_quit.
Qed.

Lemma registered_callbacks_app (l k : list event) :
  forallb (λ e, negb (is_add_key_callback e) && negb (is_remove_key_callback e)) k
  = true →
  registered_callbacks (l ++ k) = registered_callbacks l.
Proof.
  unfold registered_callbacks. rewrite foldl_app.
  generalize (foldl (λ reg e,
                       match e with
                       | EvAddKeyCallback h => reg ++ [h]
                       | EvRemoveKeyCallback h => filter (λ h', h' ≠ h) reg
                       | _ => reg
                       end) [] l) as reg.
  induction k as [|e k IH]; intros reg; [done |]. cbn [forallb foldl].
  intros [He Hk]%andb_true_iff. by destruct e; try discriminate; apply IH.
Qed.

(** No operation registers or removes a key callback. *)
Lemma operation_keeps_callbacks (op : operation) (s : state) :
  forallb (λ e, negb (is_add_key_callback e) && negb (is_remove_key_callback e))
          (operation_calls console_dispatch op s)
  = true.
Proof.
  destruct op as [fen | | c | | cmd args]; unfold operation_calls.
  - by destruct (board_create fen).
  - done.
  - cbn [forallb is_add_key_callback is_remove_key_callback negb andb].
    rewrite forallb_app, forallb_dispatched; done.
  - eapply forallb_weaken; [| apply drawing_calls]. by intros [].
  - done.
Qed.

Lemma session_keeps_callbacks (ops : list operation) (s : state) :
  registered_callbacks (log (after_session console_dispatch ops s))
  = registered_callbacks (log s).
Proof.
  revert s. induction ops as [|op ops IH]; intros s; [done |].
  cbn [after_session]. rewrite IH. unfold after_operation. cbn [log].
  apply registered_callbacks_app, operation_keeps_callbacks.
Qed.

Lemma keystrokes_app (console : nat) (l k : list event) :
  keystrokes console (l ++ k) = keystrokes console l ++ keystrokes console k.
Proof. unfold keystrokes. apply bind_app. Qed.

Lemma keystrokes_none (console : nat) (l : list event) :
  forallb (λ e, if e is EvProcessKeystroke _ _ then false else true) l = true →
  keystrokes console l = [].
Proof.
  induction l as [|e l IH]; [done |]. cbn [forallb].
  intros [He Hl]%andb_true_iff. unfold keystrokes in *. rewrite bind_cons, IH by done.
  by destruct e.
Qed.

(** A key reaches the console once; no other operation sends one. *)
Lemma operation_keystrokes (op : operation) (s : state) :
  keystrokes (m_console (this s)) (operation_calls console_dispatch op s)
  = if op is OpKey c then [c] else [].
Proof.
  destruct op as [fen | | c | | cmd args]; unfold operation_calls.
  - apply keystrokes_none. by destruct (board_create fen).
  - done.
  - set (dispatched := console_dispatch _ c).
    assert (keystrokes (m_console (this s))
              (_ ← dispatched; quit_calls (m_console (this s))) = []) as Hnone
      by (by apply keystrokes_none, forallb_dispatched).
    unfold keystrokes in *. rewrite !bind_cons, bind_app, Hnone.
    by rewrite decide_True.
  - apply keystrokes_none. eapply forallb_weaken; [| apply drawing_calls]. by intros [].
  - done.
Qed.

(** An operation that takes the lock is one critical section. *)
Lemma operation_guarded (op : operation) (s : state) (rest : list event) :
  takes_lock op = true →
  guarded false (operation_calls console_dispatch op s ++ rest) = guarded false rest.
Proof.
  destruct op as [fen | | c | | cmd args]; try discriminate; intros _;
    unfold operation_calls.
  - by destruct (board_create fen).
  - done.
  - cbn [app guarded touches_client_state negb orb andb].
    by rewrite <- app_assoc, guarded_dispatched.
Qed.

(** ** A client from its creation to its destruction *)

Lemma create_valid_run (fen : option string) (b : board) (l : list event) :
  requested_board fen = Some b →
  create fen l
  = (Some (mk_client b (fresh_callback l) false (fresh_console l) false),
     l ++ [EvSetBoard board_create_default; EvAddKeyCallback (fresh_callback l)]
       ++ ([EvWriteShouldQuit false; EvConsoleCreate (fresh_console l)]
           ++ (if fen is Some _ then [EvLock; EvSetBoard b; EvUnlock] else [])
           ++ [EvAddAlias (fresh_console l) "quit";
               EvSetCallback (fresh_console l) CmdQuit]
           ++ described_frame (mk_coord 0 0) ++ described_tiles b (mk_coord 0 0))
       ++ [EvSetAcceptInput (fresh_console l) true]).
Proof.
  intros Hboard. unfold create. rewrite client_ctor_calls.
  destruct fen as [fen|]; simpl in Hboard.
  - rewrite (load_fen_valid _ _ _ Hboard). cbn [this log with_mutex with_engine
      m_engine m_key_callback m_should_quit m_console m_mutex].
    rewrite create_finish. cbn [this log m_console m_engine].
    f_equal. by rewrite <- !app_assoc.
  - injection Hboard as <-. rewrite create_finish. cbn [this log m_console m_engine].
    f_equal. by rewrite <- !app_assoc.
Qed.

(** What is known of a client that [create] returned. *)
Lemma create_instance (fen : option string) (l l1 : list event) (c : client) :
  create fen l = (Some c, l1) →
  ∃ b middle,
    requested_board fen = Some b
    ∧ c = mk_client b (fresh_callback l) false (fresh_console l) false
    ∧ l1 = l ++ [EvSetBoard board_create_default; EvAddKeyCallback (fresh_callback l)]
             ++ middle ++ [EvSetAcceptInput (fresh_console l) true]
    ∧ forallb (λ e, negb (is_add_key_callback e) && negb (is_remove_key_callback e))
              (middle ++ [EvSetAcceptInput (fresh_console l) true])
      = true.
Proof.
  intros Hcreate. destruct (requested_board fen) as [b|] eqn:Hboard.
  - rewrite (create_valid_run _ _ _ Hboard) in Hcreate.
    injection Hcreate as <- <-.
    exists b, ([EvWriteShouldQuit false; EvConsoleCreate (fresh_console l)]
               ++ (if fen is Some _ then [EvLock; EvSetBoard b; EvUnlock] else [])
               ++ [EvAddAlias (fresh_console l) "quit";
                   EvSetCallback (fresh_console l) CmdQuit]
               ++ described_frame (mk_coord 0 0) ++ described_tiles b (mk_coord 0 0)).
    split; [reflexivity |]. split; [reflexivity |]. split; [reflexivity |].
    set (d := described_frame _ ++ described_tiles _ _).
    assert (forallb (λ e, negb (is_add_key_callback e)
                          && negb (is_remove_key_callback e)) d = true) as Hd
      by (eapply forallb_weaken; [| apply drawing_calls]; by intros []).
    rewrite !forallb_app, Hd. by destruct fen.
  - destruct fen as [fen|]; [| done]. simpl in Hboard.
    by rewrite (create_invalid _ _ Hboard) in Hcreate.
Qed.

Lemma client_dtor_calls (s : state) :
  client_dtor s
  = (Returned tt,
     mk_state (this s) (log s ++ [EvRemoveKeyCallback (m_key_callback (this s))])).
Proof. by destruct s. Qed.

(** ** Keys during the creation *)

Lemma accept_input_from_untouched (console : nat) (flag : option bool)
    (l : list event) :
  forallb (λ e, negb (is_set_accept_input e)) l = true →
  accept_input_from console flag l = flag.
Proof.
  induction l as [|e l IH]; [done |]. cbn [forallb].
  intros [He Hl]%andb_true_iff. unfold accept_input_from in *. cbn [foldl].
  by destruct e; try discriminate; apply IH.
Qed.

Lemma forallb_take (p : event → bool) (n : nat) (l : list event) :
  forallb p l = true → forallb p (take n l) = true.
Proof.
  revert n. induction l as [|e l IH]; intros [|n]; try done.
  cbn [forallb take]. intros [-> Hl]%andb_true_iff. by apply IH.
Qed.

(** A key on a console that waits for input to be switched on, at a
    moment when it has not been: the key reaches the console, no command
    runs and the client is as it was. *)
Lemma key_before_input (dispatch : list event → ascii → list (command_id * list string))
    (key : ascii) (s : state) :
  waits_for_accept_input dispatch →
  accept_input (m_console (this s)) (log s) ≠ Some true →
  key_callback dispatch key s
  = (Returned tt,
     mk_state (with_mutex false (with_mutex true (this s)))
              (log s ++ [EvLock; EvProcessKeystroke (m_console (this s)) key;
                         EvUnlock])).
Proof.
  intros Hwaits Hclosed. rewrite key_callback_calls.
  change (log s ++ [EvLock; EvProcessKeystroke (m_console (this s)) key])
    with (log s ++ [EvLock] ++ [EvProcessKeystroke (m_console (this s)) key]).
  rewrite (app_assoc (log s) [EvLock]), Hwaits; [done |].
  by rewrite accept_input_app.
Qed.

(** C7: when no position is given, or the board factory accepts the
    one given, [create] returns an instance, and its calls come in this
    order: the engine receives its board (the default one, then the
    parsed one if a position was given), the quit command is registered,
    the whole board is drawn, and last of all the console is told to
    accept input; nothing before that last call touches the
    accept-input flag.  So on a console that runs no command until input
    is switched on, a key that arrives at any moment between the
    constructor and that last call runs no command and changes nothing
    of the client, and once [create] has returned input is on. *)
Theorem create_valid_order (fen : option string) (b : board) (l : list event) :
  requested_board fen = Some b →
  let h := fresh_callback l in
  let console := fresh_console l in
  let c := mk_client b h false console false in
  let setup :=
    [EvSetBoard board_create_default; EvAddKeyCallback h;
     EvWriteShouldQuit false; EvConsoleCreate console]
    ++ (if fen is Some _ then [EvLock; EvSetBoard b; EvUnlock] else []) in
  let commands := calls_of register_commands (mk_state c (l ++ setup)) in
  let drawing := calls_of redraw (mk_state c (l ++ setup ++ commands)) in
  create fen l
  = (Some c, l ++ setup ++ commands ++ drawing ++ [EvSetAcceptInput console true])
  ∧ last (List.filter is_set_board setup) = Some (EvSetBoard b)
  ∧ commands = [EvAddAlias console "quit"; EvSetCallback console CmdQuit]
  ∧ drawing = described_frame (mk_coord 0 0) ++ described_tiles b (mk_coord 0 0)
  ∧ forallb (λ e, negb (is_set_board e)) (commands ++ drawing) = true
  ∧ forallb (λ e, negb (is_render e)) (setup ++ commands) = true
  ∧ forallb (λ e, negb (is_set_accept_input e)) (setup ++ commands ++ drawing) = true
  ∧ accept_input console
      (l ++ setup ++ commands ++ drawing ++ [EvSetAcceptInput console true])
    = Some true
  ∧ (∀ (dispatch : list event → ascii → list (command_id * list string))
       (n : nat) (now : client) (key : ascii),
       waits_for_accept_input dispatch →
       accept_input console l ≠ Some true →
       m_console now = console →
       (4 ≤ n)%nat →
       let made := l ++ take n (setup ++ commands ++ drawing) in
       accept_input console made ≠ Some true
       ∧ key_callback dispatch key (mk_state now made)
         = (Returned tt,
            mk_state (with_mutex false (with_mutex true now))
                     (made ++ [EvLock; EvProcessKeystroke console key; EvUnlock]))).
Proof.
  intros Hboard h console c setup commands drawing.
  assert (commands = [EvAddAlias console "quit"; EvSetCallback console CmdQuit])
    as Hcommands.
  { unfold commands, calls_of. rewrite register_commands_calls.
    cbn [snd this log]. by rewrite drop_app_length. }
  assert (drawing = described_frame (mk_coord 0 0) ++ described_tiles b (mk_coord 0 0))
    as Hdrawing.
  { unfold drawing, calls_of. rewrite redraw_calls.
    cbn [snd this log]. by rewrite drop_app_length. }
  pose proof (drawing_only_reads b) as Hreads.
  rewrite forallb_forall in Hreads.
  assert (forallb (λ e, negb (is_set_accept_input e)) (setup ++ commands ++ drawing)
          = true) as Huntouched.
  { rewrite Hcommands, Hdrawing. unfold setup.
    set (d := described_frame _ ++ described_tiles _ _) in *. clearbody d.
    rewrite !forallb_app, !andb_true_iff.
    assert (forallb (λ e, negb (is_set_accept_input e)) d = true) as Hd.
    { apply forallb_forall. intros e Hin.
      apply Hreads in Hin. by apply andb_true_iff in Hin as [_ ->]. }
    by destruct fen. }
  split; [| split; [| split; [exact Hcommands | split; [exact Hdrawing |]]]];
    [| | split; [| split; [| split; [exact Huntouched | split]]]].
  - rewrite Hdrawing, Hcommands. unfold create. rewrite client_ctor_calls.
    destruct fen as [fen|]; simpl in Hboard.
    + rewrite (load_fen_valid _ _ _ Hboard). cbn [this log with_mutex with_engine
        m_engine m_key_callback m_should_quit m_console m_mutex].
      rewrite create_finish. cbn [this log m_console m_engine].
      f_equal. unfold setup. by rewrite <- !app_assoc.
    + injection Hboard as <-. rewrite create_finish. cbn [this log m_console m_engine].
      f_equal. unfold setup. by rewrite <- !app_assoc.
  - unfold setup. by destruct fen; simpl in *; [| injection Hboard as <-].
  - rewrite Hcommands, Hdrawing.
    apply forallb_forall. intros e [<- | [<- | Hin]]; [done | done |].
    apply Hreads in Hin. by apply andb_true_iff in Hin as [-> _].
  - rewrite Hcommands. unfold setup. by destruct fen.
  - replace (l ++ setup ++ commands ++ drawing ++ [EvSetAcceptInput console true])
      with (l ++ (setup ++ commands ++ drawing) ++ [EvSetAcceptInput console true])
      by (by rewrite <- !app_assoc).
    apply accept_input_set.
  - intros dispatch n now key Hwaits Hclosed Hconsole Hbuilt made.
    assert (accept_input console made ≠ Some true) as Hmade.
    { unfold made. rewrite accept_input_app, accept_input_from_untouched; [done |].
      by apply forallb_take. }
    split; [exact Hmade |].
    rewrite <- Hconsole. apply key_before_input; [done |]. cbn [this log].
    by rewrite Hconsole.
Qed.

(** X3: for a client that [create] returned, on a renderer that handed
    out a handle it did not hold: the client's key callback is
    registered when [create] returns and stays so through every
    session, and the destructor leaves the renderer with the callbacks
    it held before the creation. *)
Theorem client_lifetime_callbacks (fen : option string) (l l1 : list event)
    (c : client) (ops : list operation) :
  create fen l = (Some c, l1) →
  fresh_callback l ∉ registered_callbacks l →
  let alive := (session console_dispatch ops (mk_state c l1)).2 in
  registered_callbacks l1 = registered_callbacks l ++ [m_key_callback c]
  ∧ registered_callbacks (log alive) = registered_callbacks l ++ [m_key_callback c]
  ∧ calls_of client_dtor alive = [EvRemoveKeyCallback (m_key_callback c)]
  ∧ registered_callbacks (log (client_dtor alive).2) = registered_callbacks l.
Proof.
  intros (b & middle & _ & -> & -> & Hquiet)%create_instance Hnew alive.
  cbn [m_key_callback].
  assert (registered_callbacks
            (l ++ [EvSetBoard board_create_default; EvAddKeyCallback (fresh_callback l)]
               ++ middle ++ [EvSetAcceptInput (fresh_console l) true])
          = registered_callbacks l ++ [fresh_callback l]) as Hcreated.
  { rewrite app_assoc, registered_callbacks_app by done.
    unfold registered_callbacks. by rewrite foldl_app. }
  assert (registered_callbacks (log alive) = registered_callbacks l ++ [fresh_callback l])
    as Halive.
  { unfold alive. rewrite session_run. cbn [snd].
    by rewrite session_keeps_callbacks. }
  assert (m_key_callback (this alive) = fresh_callback l) as Hhandle.
  { unfold alive. rewrite session_run. cbn [snd].
    by destruct (after_session_ids ops (mk_state
      (mk_client b (fresh_callback l) false (fresh_console l) false)
      (l ++ [EvSetBoard board_create_default; EvAddKeyCallback (fresh_callback l)]
         ++ middle ++ [EvSetAcceptInput (fresh_console l) true]))) as [_ ->]. }
  split; [exact Hcreated |]. split; [exact Halive |]. split.
  - unfold calls_of. rewrite client_dtor_calls. cbn [snd log].
    by rewrite drop_app_length, Hhandle.
  - rewrite client_dtor_calls. cbn [snd log]. rewrite Hhandle.
    unfold registered_callbacks in *. rewrite foldl_app, Halive. cbn [foldl].
    rewrite filter_app, filter_cons_False, filter_nil, app_nil_r by (intros Hne; done).
    by apply filter_keeps_others.
Qed.

(** X4: for a client that [create] returned, after every session the
    operations have returned without an error, the console accepts
    input and the client lock is free. *)
Theorem created_client_accepts_input (fen : option string) (l l1 : list event)
    (c : client) (ops : list operation) :
  create fen l = (Some c, l1) →
  let after := session console_dispatch ops (mk_state c l1) in
  after.1 = Returned tt
  ∧ accept_input (m_console c) l1 = Some true
  ∧ accept_input (m_console c) (log after.2) = Some true
  ∧ m_mutex (this after.2) = false.
Proof.
  intros (b & middle & _ & -> & -> & _)%create_instance after.
  cbn [m_console]. unfold after. rewrite session_run. cbn [fst snd].
  set (console := fresh_console l). set (h := fresh_callback l).
  assert (∀ s, accept_input (m_console (this s)) (log s) = Some true →
               m_mutex (this s) = false →
               accept_input (m_console (this s))
                            (log (after_session console_dispatch ops s)) = Some true
               ∧ m_mutex (this (after_session console_dispatch ops s)) = false)
    as Hkept.
  { induction ops as [|op ops IH]; intros s Hopen Hfree; [done |].
    cbn [after_session].
    destruct (after_operation_ids op s) as [Hconsole _].
    destruct (IH (after_operation console_dispatch op s)) as [Hopen' Hfree'].
    - rewrite Hconsole. unfold after_operation. cbn [log].
      rewrite accept_input_app, Hopen. apply operation_reopens.
    - by apply after_operation_mutex.
    - by rewrite Hconsole in Hopen'. }
  assert (accept_input console
            (l ++ [EvSetBoard board_create_default; EvAddKeyCallback h]
               ++ middle ++ [EvSetAcceptInput console true]) = Some true) as Hopen.
  { rewrite (app_assoc _ middle). apply accept_input_set. }
  split; [done |]. split; [exact Hopen |].
  by apply (Hkept (mk_state (mk_client b h false console false) _)).
Qed.

(** X5: once [should_quit] is true no session makes it false again:
    after any operations [should_quit()] returns true. *)
Theorem should_quit_stays_true (ops : list operation) (s : state) :
  m_should_quit (this s) = true →
  let after := (session console_dispatch ops s).2 in
  m_should_quit (this after) = true
  ∧ (should_quit after).1 = Returned true.
Proof.
  intros Hquit after.
  assert (m_should_quit (this after) = true) as Hafter.
  { unfold after. rewrite session_run. cbn [snd]. clear after.
    revert s Hquit. induction ops as [|op ops IH]; intros s Hquit; [done |].
    cbn [after_session]. by apply IH, after_operation_should_quit. }
  split; [exact Hafter |]. by rewrite should_quit_calls, Hafter.
Qed.

(** X6: a key delivered to the client is passed to its console once,
    returns without an error, and changes nothing of the client but
    [should_quit], which becomes true exactly when the console runs a
    command for the key and is otherwise left as it was. *)
Theorem key_callback_effect (c : ascii) (s : state) :
  let console := m_console (this s) in
  let dispatched :=
    console_dispatch (log s ++ [EvLock; EvProcessKeystroke console c]) c in
  let after := key_callback console_dispatch c s in
  after.1 = Returned tt
  ∧ m_should_quit (this after.2)
    = m_should_quit (this s) || bool_decide (dispatched ≠ [])
  ∧ m_engine (this after.2) = m_engine (this s)
  ∧ m_key_callback (this after.2) = m_key_callback (this s)
  ∧ m_console (this after.2) = console
  ∧ m_mutex (this after.2) = false
  ∧ keystrokes console (calls_of (key_callback console_dispatch c) s) = [c]
  ∧ count_calls (λ e, if e is EvWriteShouldQuit _ then true else false)
                (calls_of (key_callback console_dispatch c) s)
    = length dispatched.
Proof.
  intros console dispatched after.
  assert (calls_of (key_callback console_dispatch c) s
          = operation_calls console_dispatch (OpKey c) s) as Hcalls.
  { unfold calls_of. rewrite key_callback_calls. cbn [snd log].
    by rewrite drop_app_length. }
  unfold after. rewrite Hcalls, key_callback_calls. cbn [fst snd this].
  fold console. fold dispatched.
  split; [done |]. split; [| split; [| split; [| split; [| split; [| split]]]]].
  - destruct dispatched; cbn [with_mutex with_should_quit m_should_quit].
    + by rewrite orb_false_r.
    + by rewrite orb_true_r.
  - by destruct dispatched.
  - by destruct dispatched.
  - by destruct dispatched.
  - done.
  - apply (operation_keystrokes (OpKey c)).
  - unfold operation_calls. fold console. fold dispatched.
    change (EvLock :: EvProcessKeystroke console c :: ?l)
      with ([EvLock; EvProcessKeystroke console c] ++ l).
    rewrite !count_calls_app.
    assert (count_calls (λ e, if e is EvWriteShouldQuit _ then true else false)
              (_ ← dispatched; quit_calls console) = length dispatched) as ->.
    { induction dispatched as [|call calls IH]; [done |].
      rewrite bind_cons, count_calls_app, IH. done. }
    cbn. lia.
Qed.

(** X7: the keys of a session reach the client's console in the order
    of their delivery, each once, whatever other operations come in
    between. *)
Theorem session_keystrokes_in_order (ops : list operation) (s : state) :
  keystrokes (m_console (this s)) (calls_of (session console_dispatch ops) s)
  = keys_of ops.
Proof.
  rewrite session_calls_of. revert s.
  induction ops as [|op ops IH]; intros s; [done |].
  cbn [session_calls]. rewrite keystrokes_app, operation_keystrokes.
  destruct (after_operation_ids op s) as [Hconsole _].
  rewrite <- Hconsole, IH. unfold keys_of. by rewrite bind_cons.
Qed.

(** X8: in a session of operations that take the client lock
    ([load_fen], [should_quit], keys) every read and write of client
    state is made while the lock is held, and a lock that was free
    before is free after. *)
Theorem locked_session_guarded (ops : list operation) (s : state) :
  forallb takes_lock ops = true →
  m_mutex (this s) = false →
  guarded false (calls_of (session console_dispatch ops) s) = true
  ∧ m_mutex (this (session console_dispatch ops s).2) = false.
Proof.
  intros Hlocked Hfree. rewrite session_calls_of, session_run. cbn [snd].
  revert s Hfree. induction ops as [|op ops IH]; intros s Hfree; [done |].
  cbn [forallb] in Hlocked. apply andb_true_iff in Hlocked as [Hop Hops].
  cbn [session_calls after_session]. rewrite operation_guarded by done.
  apply IH; [done |]. by apply after_operation_mutex.
Qed.

(** X2: [should_quit] returns the flag and changes no field of the
    client; it answers false on a client that [create] has just
    returned and true once the quit command has run. *)
Theorem should_quit_reads_flag (s : state) :
  (should_quit s).1 = Returned (m_should_quit (this s))
  ∧ m_should_quit (this (should_quit s).2) = m_should_quit (this s)
  ∧ m_engine (this (should_quit s).2) = m_engine (this s)
  ∧ m_key_callback (this (should_quit s).2) = m_key_callback (this s)
  ∧ m_console (this (should_quit s).2) = m_console (this s)
  ∧ (∀ args, (should_quit (command_callback CmdQuit args s).2).1 = Returned true)
  ∧ (∀ fen l c l1,
       create fen l = (Some c, l1) →
       (should_quit (mk_state c l1)).1 = Returned false).
Proof.
  rewrite should_quit_calls. cbn [fst snd this]. do 5 (split; [done |]). split.
  - intros args. by rewrite quit_callback_calls, should_quit_calls.
  - intros fen l c l1 (b & middle & _ & -> & _)%create_instance.
    by rewrite should_quit_calls.
Qed.

(** X12: whether it returns a client or not, one [create] registers
    one key callback and creates one console; it removes the callback
    again exactly when it returns no client, and makes render calls
    exactly when it returns one. *)
Theorem create_resources (fen : option string) (l : list event) :
  let calls := drop (length l) (create fen l).2 in
  let failed := if (create fen l).1 is Some _ then false else true in
  count_calls is_add_key_callback calls = 1%nat
  ∧ count_calls is_console_create calls = 1%nat
  ∧ count_calls is_remove_key_callback calls = (if failed then 1 else 0)%nat
  ∧ count_calls is_render calls = (if failed then 0 else 289)%nat
  ∧ failed = (if requested_board fen is Some _ then false else true).
Proof.
  intros calls failed. unfold calls, failed.
  destruct (requested_board fen) as [b|] eqn:Hboard.
  - rewrite (create_valid_run _ _ _ Hboard). cbn [fst snd].
    rewrite drop_app_length.
    set (d := described_frame _ ++ described_tiles _ _).
    assert (count_calls is_add_key_callback d = 0
            ∧ count_calls is_console_create d = 0
            ∧ count_calls is_remove_key_callback d = 0
            ∧ count_calls is_render d = 289)%nat as (Hadd & Hconsole & Hremove & Hrender)
      by (vm_compute; by repeat split).
    change ([EvSetBoard board_create_default; EvAddKeyCallback (fresh_callback l)]
              ++ ([EvWriteShouldQuit false; EvConsoleCreate (fresh_console l)]
                  ++ ?middle) ++ ?final)
      with ([EvSetBoard board_create_default; EvAddKeyCallback (fresh_callback l);
             EvWriteShouldQuit false; EvConsoleCreate (fresh_console l)]
              ++ middle ++ final).
    rewrite !count_calls_app, Hadd, Hconsole, Hremove, Hrender.
    by destruct fen.
  - destruct fen as [fen|]; [| done]. simpl in Hboard.
    rewrite (create_invalid _ _ Hboard). cbn [fst snd]. by rewrite drop_app_length.
Qed.

(** X1: [load_fen] returns whether the board factory accepts the
    string; if it does the engine holds the new board, if not the
    engine keeps its board and the next drawing is the one before; the
    other fields are untouched and the lock is free again. *)
Theorem load_fen_effect (fen : string) (s : state) :
  let after := load_fen fen s in
  after.1 = Returned (bool_decide (is_Some (board_create fen)))
  ∧ m_engine (this after.2) = default (m_engine (this s)) (board_create fen)
  ∧ m_should_quit (this after.2) = m_should_quit (this s)
  ∧ m_key_callback (this after.2) = m_key_callback (this s)
  ∧ m_console (this after.2) = m_console (this s)
  ∧ m_mutex (this after.2) = false
  ∧ count_calls is_set_board (calls_of (load_fen fen) s)
    = (if board_create fen is Some _ then 1 else 0)%nat
  ∧ (board_create fen = None → calls_of redraw after.2 = calls_of redraw s).
Proof.
  intros after. unfold after, calls_of.
  destruct (board_create fen) as [b|] eqn:Hboard.
  - rewrite (load_fen_valid _ _ _ Hboard). cbn [fst snd this log].
    rewrite drop_app_length. by repeat split.
  - rewrite (load_fen_invalid _ _ Hboard). cbn [fst snd this log].
    rewrite drop_app_length. do 7 (split; [done |]). intros _.
    rewrite !redraw_calls. cbn [snd this log]. by rewrite !drop_app_length.
Qed.

End SessionFacts.

Section ScreenFacts.
Context `{Collaborators}.

(** ** The picture and its offset *)

Lemma fmap_bind_list {A B C} (f : B → C) (g : A → list B) (l : list A) :
  f <$> (x ← l; g x) = x ← l; f <$> g x.
Proof.
  induction l as [|x l IH]; [done |]. by rewrite !bind_cons, fmap_app, IH.
Qed.

Lemma described_tiles_translate (b : board) (offset : coord) :
  described_tiles b offset = translate offset <$> described_tiles b (mk_coord 0 0).
Proof.
  unfold described_tiles. rewrite fmap_bind_list.
  apply Forall_bind_ext, Forall_forall. intros x _.
  rewrite fmap_bind_list. apply Forall_bind_ext, Forall_forall. intros y _.
  reflexivity.
Qed.

Lemma redraw_board_calls_translate (offset : coord) (s : state) :
  calls_of (redraw_board offset) s
  = translate offset
      <$> (described_frame (mk_coord 0 0)
           ++ described_tiles (m_engine (this s)) (mk_coord 0 0)).
Proof.
  rewrite (paints_calls_of _ _ _ (redraw_board_paints offset)).
  by rewrite fmap_app, <- described_frame_translate, <- described_tiles_translate.
Qed.

(** X9: the calls of [redraw_board] at an offset are its calls at the
    origin with every cell moved by the offset; they depend on the board
    of the engine and on nothing else of the client or the log, and the
    client is left as it was. *)
Theorem redraw_board_moves_with_offset (offset : coord) (s : state) :
  calls_of (redraw_board offset) s
  = translate offset <$> calls_of (redraw_board (mk_coord 0 0)) s
  ∧ this (redraw_board offset s).2 = this s
  ∧ (∀ s', m_engine (this s') = m_engine (this s) →
           calls_of (redraw_board offset) s' = calls_of (redraw_board offset) s).
Proof.
  split; [| split].
  - rewrite (redraw_board_calls_translate offset).
    rewrite (paints_calls_of _ _ _ (redraw_board_paints (mk_coord 0 0))). done.
  - by rewrite redraw_board_returns.
  - intros s' Hengine. by rewrite !redraw_board_calls_translate, Hengine.
Qed.

(** ** The cells of the square *)

Lemma render_cells_translate (offset : coord) (l : list event) :
  render_cells (translate offset <$> l) = coord_add offset <$> render_cells l.
Proof.
  unfold render_cells. induction l as [|e l IH]; [done |].
  rewrite fmap_cons, !bind_cons, fmap_app, IH. by destruct e.
Qed.

Lemma painted_translate (offset : coord) (l : list event) :
  painted (translate offset <$> l)
  = (λ cell, (offset +c cell.1, cell.2)) <$> painted l.
Proof.
  unfold painted. induction l as [|e l IH]; [done |].
  rewrite fmap_cons, !bind_cons, fmap_app, IH. by destruct e.
Qed.

Lemma same_elements {A} `{EqDecision A} (l k : list A) :
  bool_decide (NoDup l) = true →
  bool_decide (NoDup k) = true →
  bool_decide (Forall (λ x, x ∈ k) l) = true →
  bool_decide (Forall (λ x, x ∈ l) k) = true →
  l ≡ₚ k.
Proof.
  intros Hl%bool_decide_eq_true Hk%bool_decide_eq_true
         Hlk%bool_decide_eq_true Hkl%bool_decide_eq_true.
  rewrite Forall_forall in Hlk, Hkl.
  apply NoDup_Permutation; [done | done |]. intros x. split; auto.
Qed.

Lemma origin_cells (b : board) :
  render_cells (described_frame (mk_coord 0 0) ++ described_tiles b (mk_coord 0 0))
  ≡ₚ screen_square.
Proof. apply same_elements; vm_compute; reflexivity. Qed.

Lemma origin_frame :
  painted (described_frame (mk_coord 0 0))
  ≡ₚ (λ pos, (pos, frame_glyph (coord_x pos) (coord_y pos))) <$> frame_cells.
Proof. apply same_elements; vm_compute; reflexivity. Qed.

(** X10: one [redraw_board] paints every cell of the square of
    [2 * width + 1] by [2 * width + 1] cells at the offset, and paints
    each of them once: nothing is left out, nothing is painted twice
    and nothing outside the square is touched. *)
Theorem redraw_board_paints_square_once (offset : coord) (s : state) :
  render_cells (calls_of (redraw_board offset) s)
  ≡ₚ coord_add offset <$> screen_square
  ∧ length (render_cells (calls_of (redraw_board offset) s))
    = Z.to_nat ((2 * board_width + 1) * (2 * board_width + 1)).
Proof.
  rewrite redraw_board_calls_translate, render_cells_translate.
  pose proof (origin_cells (m_engine (this s))) as Hcells.
  split.
  - by rewrite Hcells.
  - rewrite length_fmap, Hcells. reflexivity.
Qed.

(** X11: the frame pass paints exactly the cells of the square that
    have an even coordinate, each once, and each with the glyph that
    belongs there: a vertical bar where only the column is even, a
    horizontal bar where only the row is even, a corner in each corner, a
    T towards the inside on the borders and a cross at the inner
    crossings; it makes no other call. *)
Theorem redraw_board_frame_glyphs (offset : coord) (s : state) :
  painted (calls_of (redraw_board_frame offset) s)
  ≡ₚ (λ pos, (offset +c pos, frame_glyph (coord_x pos) (coord_y pos))) <$> frame_cells
  ∧ length (calls_of (redraw_board_frame offset) s) = length frame_cells.
Proof.
  rewrite (paints_calls_of _ _ _ (redraw_board_frame_paints offset)).
  split.
  - rewrite described_frame_translate, painted_translate, origin_frame.
    by rewrite <- list_fmap_compose.
  - vm_compute. reflexivity.
Qed.

End ScreenFacts.

(** * The theorems at work on the example engine *)

Section Examples.
#[local] Existing Instance example_collaborators.

(** A position string the example factory rejects: the constructor has
    run, the console exists, and no instance comes back. *)
Lemma create_invalid_creates_console :
  board_create "not a position" = None
  ∧ (create (Some "not a position"%string) []).1 = None
  ∧ (create (Some "not a position"%string) []).2
    = [EvSetBoard example_default; EvAddKeyCallback 0; EvWriteShouldQuit false;
       EvConsoleCreate 0; EvLock; EvUnlock; EvRemoveKeyCallback 0]
  ∧ count_calls is_console_create
      (create (Some "not a position"%string) []).2
    = 1%nat.
Proof. vm_compute. by repeat split. Qed.

Lemma create_invalid_unwinds_witness :
  board_create "not a position" = None
  ∧ (fresh_callback [] ∉ registered_callbacks [])
  ∧ (create (Some "not a position"%string) []).1 = None
  ∧ registered_callbacks (create (Some "not a position"%string) []).2 = []
  ∧ count_calls is_render (create (Some "not a position"%string) []).2 = 0%nat
  ∧ EvConsoleCreate 0 ∈ (create (Some "not a position"%string) []).2.
Proof.
  split; [reflexivity |]. split; [apply not_elem_of_nil |].
  destruct (create_invalid_unwinds "not a position" [])
    as (Hnone & _ & Hregistered & Hrender & Hconsole);
    [reflexivity | apply not_elem_of_nil |].
  split; [exact Hnone |]. split; [exact Hregistered |].
  split; [exact Hrender | exact Hconsole].
Defined.

(** The quit callback, run on a client whose lock is free, writes
    [should_quit] and takes no lock; neither do the constructor, which
    writes the engine state and [should_quit], and the first drawing,
    which reads the engine state. *)
Lemma client_state_touched_without_lock :
  m_mutex (this example_state) = false
  ∧ calls_of (command_callback CmdQuit []) example_state
    = [EvSetAcceptInput 0 false; EvWriteShouldQuit true; EvSetAcceptInput 0 true]
  ∧ guarded false
      (calls_of (command_callback CmdQuit []) example_state)
    = false
  ∧ log (client_ctor [])
    = [EvSetBoard example_default; EvAddKeyCallback 0; EvWriteShouldQuit false;
       EvConsoleCreate 0]
  ∧ guarded false (log (client_ctor [])) = false
  ∧ guarded false (create None []).2 = false
  ∧ count_calls (λ e, if e is EvLock then true else false)
      (create None []).2 = 0%nat.
Proof. vm_compute. by repeat split. Qed.

Lemma redraw_board_tile_position_witness :
  (0 ≤ 4 < board_width ∧ 0 ≤ 7 < board_width)
  ∧ tile_global (mk_coord 0 0) 4 7 = mk_coord 9 1
  ∧ (∃ before after,
       calls_of (redraw_board (mk_coord 0 0)) example_state
       = before
         ++ [EvGetPiece (mk_coord 4 7);
             EvRender (mk_coord 9 1) 107 (Some 0) (Some 7)]
         ++ after
       ∧ (EvGetPiece (mk_coord 4 7) ∉ before)
       ∧ (EvGetPiece (mk_coord 4 7) ∉ after))
  ∧ coord_y (tile_global (mk_coord 0 0) 4 0)
    > coord_y (tile_global (mk_coord 0 0) 4 (board_width - 1)).
Proof.
  split; [unfold board_width; lia |].
  apply (redraw_board_tile_position
           example_state (mk_coord 0 0) 4 7); unfold board_width; lia.
Defined.

Lemma redraw_board_tile_colors_witness :
  (0 ≤ 0 < board_width ∧ 0 ≤ 1 < board_width)
  ∧ is_tile_white (mk_coord 0 1) = true
  ∧ (∃ before after pos glyph,
       calls_of (redraw_board (mk_coord 0 0)) example_state
       = before
         ++ [EvGetPiece (mk_coord 0 1);
             EvRender pos glyph (Some color_black)
                      (Some color_white)]
         ++ after
       ∧ (EvGetPiece (mk_coord 0 1) ∉ before)
       ∧ (EvGetPiece (mk_coord 0 1) ∉ after))
  ∧ tile_fg (mk_coord 0 0) = tile_fg (mk_coord 7 7)
  ∧ tile_bg (mk_coord 0 0) = tile_bg (mk_coord 7 7)
  ∧ tile_fg (mk_coord 0 1) = tile_bg (mk_coord 0 0)
  ∧ tile_bg (mk_coord 0 1) = tile_fg (mk_coord 0 0).
Proof.
  split; [unfold board_width; lia |].
  apply (redraw_board_tile_colors
           example_state (mk_coord 0 0) 0 1); unfold board_width; lia.
Defined.

Lemma redraw_board_blank_square_witness :
  (0 ≤ 3 < board_width ∧ 0 ≤ 3 < board_width)
  ∧ serialize_piece
      (engine_get_piece (m_engine (this example_state)) (mk_coord 3 3)) = None
  ∧ (redraw_board (mk_coord 0 0) example_state).1
    = Returned tt
  ∧ ∃ before after,
      calls_of (redraw_board (mk_coord 0 0)) example_state
      = before
        ++ [EvGetPiece (mk_coord 3 3);
            EvRender (mk_coord 7 9) 32 (Some 7) (Some 0)]
        ++ after
      ∧ (EvGetPiece (mk_coord 3 3) ∉ before)
      ∧ (EvGetPiece (mk_coord 3 3) ∉ after).
Proof.
  split; [unfold board_width; lia |]. split; [reflexivity |].
  destruct (redraw_board_blank_square example_state (mk_coord 0 0) 3 3)
    as (Hreturns & _ & Htile);
    [unfold board_width; lia | unfold board_width; lia | reflexivity |].
  split; [exact Hreturns | exact Htile].
Defined.

Lemma example_gated_dispatch_waits :
  waits_for_accept_input example_gated_dispatch.
Proof.
  intros past cid c Hclosed. unfold example_gated_dispatch. rewrite last_snoc.
  rewrite decide_False; [done |]. intros [Hopen _]. apply Hclosed.
  rewrite <- Hopen. unfold accept_input. by rewrite foldl_snoc.
Qed.

(** The wide character of a [char]: the letter k, and a byte above
    0x7f. *)
Lemma wchar_of_char_signed :
  wchar_of_char "k" = 107 ∧ wchar_of_char " " = 32 ∧ wchar_of_char "233" = -23.
Proof. vm_compute. by repeat split. Qed.

Lemma create_valid_order_witness :
  requested_board None = Some example_default
  ∧ waits_for_accept_input example_gated_dispatch
  ∧ (create None []).1
    = Some (mk_client (H := example_collaborators) example_default 0 false 0 false)
  ∧ take 6 (create None []).2
    = [EvSetBoard example_default; EvAddKeyCallback 0; EvWriteShouldQuit false;
       EvConsoleCreate 0; EvAddAlias 0 "quit"; EvSetCallback 0 CmdQuit]
  ∧ count_calls is_render (take 359 (drop 6 (create None []).2))
    = 289%nat
  ∧ drop 359 (create None []).2
    = [EvSetAcceptInput 0 true]
  ∧ key_callback example_gated_dispatch "010"
      (mk_state (this example_state)
         [EvSetBoard example_default; EvAddKeyCallback 0; EvWriteShouldQuit false;
          EvConsoleCreate 0; EvAddAlias 0 "quit"; EvSetCallback 0 CmdQuit])
    = (Returned tt,
       mk_state (this example_state)
         [EvSetBoard example_default; EvAddKeyCallback 0; EvWriteShouldQuit false;
          EvConsoleCreate 0; EvAddAlias 0 "quit"; EvSetCallback 0 CmdQuit;
          EvLock; EvProcessKeystroke 0 "010"; EvUnlock])
  ∧ calls_of (key_callback example_gated_dispatch "010") example_created
    = [EvLock; EvProcessKeystroke 0 "010"; EvSetAcceptInput 0 false;
       EvWriteShouldQuit true; EvSetAcceptInput 0 true; EvUnlock].
Proof.
  split; [reflexivity |]. split; [exact example_gated_dispatch_waits |].
  destruct (create_valid_order (H := example_collaborators) None example_default [])
    as (Hcreate & _ & _ & _ & _ & _ & _ & _ & Hearly); [reflexivity |].
  destruct (Hearly example_gated_dispatch 6%nat (this example_state) "010"%char)
    as [_ Hkey];
    [exact example_gated_dispatch_waits | discriminate | reflexivity | lia |].
  rewrite Hcreate.
  split; [vm_compute; reflexivity |]. split; [vm_compute; reflexivity |].
  split; [vm_compute; reflexivity |]. split; [vm_compute; reflexivity |].
  split; [exact Hkey | vm_compute; reflexivity].
Defined.

Lemma quit_any_number_of_times_witness :
  [[]; ["now"%string]] ≠ []
  ∧ (for_each [[]; ["now"%string]]
       (command_callback CmdQuit) example_state).1
    = Returned tt
  ∧ this (for_each [[]; ["now"%string]]
            (command_callback CmdQuit) example_state).2
    = mk_client example_default 0 true 0 false.
Proof.
  split; [discriminate |].
  destruct (quit_any_number_of_times
              [[]; ["now"%string]] example_state)
    as (Hreturns & Hquit & Hengine & Hkey & Hconsole & Hmutex & _); [discriminate |].
  split; [exact Hreturns |].
  destruct (this _) as [b h q console held]. simpl in *. by subst.
Defined.

(** A command that throws: the exception passes through the callback and
    the console accepts input again. *)
Lemma throwing_command_reopens_input :
  BIND_CLIENT_COMMAND (A := unit) (λ _, throw "no such move") []
    example_state
  = (Thrown "no such move"%string,
     mk_state (this example_state)
       (log example_state ++ [EvSetAcceptInput 0 false; EvSetAcceptInput 0 true]))
  ∧ accept_input 0
      (log (BIND_CLIENT_COMMAND (A := unit)
              (λ _, throw "no such move") [] example_state).2)
    = Some true.
Proof. vm_compute. by split. Qed.

(** A newline on the example console runs the quit command inside the
    critical section of [key_callback]. *)
Lemma key_callback_quits_under_lock :
  calls_of (key_callback example_dispatch "010")
    example_state
  = [EvLock; EvProcessKeystroke 0 "010"; EvSetAcceptInput 0 false;
     EvWriteShouldQuit true; EvSetAcceptInput 0 true; EvUnlock]
  ∧ m_should_quit
      (this (key_callback example_dispatch "010"
               example_state).2) = true.
Proof. vm_compute. by split. Qed.

(** The example client through a session and its destruction. *)
Lemma client_lifetime_callbacks_witness :
  create None [] = (Some (this example_created), log example_created)
  ∧ (fresh_callback [] ∉ registered_callbacks [])
  ∧ registered_callbacks (log example_created) = [0%nat]
  ∧ registered_callbacks
      (log (session example_dispatch [OpKey "010"; OpRedraw]
              (mk_state (this example_created) (log example_created))).2)
    = [0%nat]
  ∧ registered_callbacks
      (log (client_dtor
              (session example_dispatch [OpKey "010"; OpRedraw]
                 (mk_state (this example_created) (log example_created))).2).2)
    = [].
Proof.
  assert (create None [] = (Some (this example_created), log example_created))
    as Hcreate by (vm_compute; reflexivity).
  split; [exact Hcreate |]. split; [apply not_elem_of_nil |].
  destruct (client_lifetime_callbacks example_dispatch None []
              (log example_created) (this example_created) [OpKey "010"; OpRedraw])
    as (Hcreated & Halive & _ & Hgone); [exact Hcreate | apply not_elem_of_nil |].
  split; [exact Hcreated |]. split; [exact Halive | exact Hgone].
Defined.

Lemma created_client_accepts_input_witness :
  create None [] = (Some (this example_created), log example_created)
  ∧ (session example_dispatch [OpKey "q"; OpKey "010"; OpShouldQuit]
       (mk_state (this example_created) (log example_created))).1
    = Returned tt
  ∧ accept_input 0
      (log (session example_dispatch [OpKey "q"; OpKey "010"; OpShouldQuit]
              (mk_state (this example_created) (log example_created))).2)
    = Some true
  ∧ m_mutex
      (this (session example_dispatch [OpKey "q"; OpKey "010"; OpShouldQuit]
               (mk_state (this example_created) (log example_created))).2)
    = false.
Proof.
  assert (create None [] = (Some (this example_created), log example_created))
    as Hcreate by (vm_compute; reflexivity).
  split; [exact Hcreate |].
  destruct (created_client_accepts_input example_dispatch None []
              (log example_created) (this example_created)
              [OpKey "q"; OpKey "010"; OpShouldQuit])
    as (Hreturns & _ & Hopen & Hfree); [exact Hcreate |].
  split; [exact Hreturns |]. split; [exact Hopen | exact Hfree].
Defined.

Lemma should_quit_stays_true_witness :
  m_should_quit (this (command_callback CmdQuit [] example_state).2) = true
  ∧ (should_quit
       (session example_dispatch
          [OpLoadFen "8/8/8/8/8/8/8/8 w - - 0 1"; OpKey "a"; OpRedraw]
          (command_callback CmdQuit [] example_state).2).2).1
    = Returned true.
Proof.
  split; [reflexivity |].
  destruct (should_quit_stays_true example_dispatch
              [OpLoadFen "8/8/8/8/8/8/8/8 w - - 0 1"; OpKey "a"; OpRedraw]
              (command_callback CmdQuit [] example_state).2)
    as [_ Hquit]; [reflexivity |].
  exact Hquit.
Defined.

Lemma locked_session_guarded_witness :
  forallb takes_lock [OpKey "010"; OpShouldQuit; OpLoadFen "no"] = true
  ∧ m_mutex (this example_state) = false
  ∧ guarded false
      (calls_of (session example_dispatch [OpKey "010"; OpShouldQuit; OpLoadFen "no"])
         example_state)
    = true
  ∧ m_mutex
      (this (session example_dispatch [OpKey "010"; OpShouldQuit; OpLoadFen "no"]
               example_state).2)
    = false.
Proof.
  split; [reflexivity |]. split; [reflexivity |].
  apply (locked_session_guarded example_dispatch
           [OpKey "010"; OpShouldQuit; OpLoadFen "no"] example_state);
    reflexivity.
Defined.

End Examples.
